(** * Colebrook friction factor by Clamond's quartic iterations

    A shallow embedding of [colebrook_clamond.py] and the properties of its
    solver [f_clamond].

    - Numbers are IEEE binary64 values, Rocq's primitive [float]: Python's
      [float] and NumPy's [float64] are both binary64, and the arithmetic
      operators [+ - * /] and the comparisons are the IEEE ones.
    - [np.log] is NumPy's, not this repository's: the solver is stated over
      an arbitrary function [ln : float -> float] applied to each element.
      [LnRef.ln_ref] is an executable instance (a logarithm computed in
      fixed point and rounded once) with which the model can be run.
    - [** 2] is NumPy's too, and it is not one operation: the elements of an
      array are squared by multiplying each by itself, and a float64 scalar
      goes to the C library's [pow], which need not return the rounded
      product. The solver is stated over an arbitrary function
      [pow2 : float -> float] for [pow(x, 2.0)]; [pow2_ref] is the instance
      that rounds correctly.
    - A NumPy value is a Python float, a float64 scalar or an n-dimensional
      array kept as its shape and its elements in row-major order. Binary
      operators broadcast their operands, and an operation whose result has
      no dimension yields a float64 scalar, as NumPy's do.
    - Python exceptions and [warnings.warn] are the effects of the code: a
      computation threads the trace of what was emitted and either returns
      or raises. The trace also records each call of [_check_log_domain].
      NumPy is taken in its default error state, in which an invalid
      operation or an overflow yields NaN or an infinity; the warnings NumPy
      itself gives then are not recorded. *)

From Stdlib Require Import Floats ZArith List Bool Arith Lia.
From Stdlib Require Strings.String.
Import ListNotations String.StringSyntax.

Set Warnings "-inexact-float".
Set Implicit Arguments.

Open Scope string_scope.
Open Scope float_scope.

(** ** NumPy values *)

Inductive value : Type :=
| PyFloat (x : float)
| NpFloat64 (x : float)
| NdArray (shape : list nat) (data : list float).

Coercion PyFloat : float >-> value.

(** [v.shape] *)
Definition shape_of (v : value) : list nat :=
  match v with
  | NdArray s _ => s
  | _ => []
  end.

(** The elements of [v], in row-major order. *)
Definition elements (v : value) : list float :=
  match v with
  | PyFloat x | NpFloat64 x => [x]
  | NdArray _ d => d
  end.

(** Number of elements of an array of shape [s]. *)
Definition size (s : list nat) : nat := fold_right Nat.mul 1%nat s.

Definition well_formed (v : value) : Prop :=
  length (elements v) = size (shape_of v).

(** [np.asarray(v, dtype=np.float64)] *)
Definition np_asarray (v : value) : value :=
  NdArray (shape_of v) (elements v).

(** [np.isscalar(v)]: true of Python and NumPy scalars, false of every
    [ndarray], the 0-dimensional ones included. *)
Definition np_isscalar (v : value) : bool :=
  match v with
  | NdArray _ _ => false
  | _ => true
  end.

(** [np.any(p(v))] for an element-wise test [p]. *)
Definition np_any (p : float -> bool) (v : value) : bool :=
  existsb p (elements v).

(** [float(v)] of a value with one element. *)
Definition py_float (v : value) : value :=
  PyFloat (hd nan (elements v)).

(** ** Broadcasting *)

(** Shapes are aligned on their last dimension: the functions ending in
    [_rev] work on reversed shapes. *)
Fixpoint broadcast_rev (s t : list nat) : option (list nat) :=
  match s, t with
  | [], _ => Some t
  | _, [] => Some s
  | n :: s', m :: t' =>
      match broadcast_rev s' t' with
      | None => None
      | Some u =>
          if (n =? m)%nat then Some (n :: u)
          else if (n =? 1)%nat then Some (m :: u)
          else if (m =? 1)%nat then Some (n :: u)
          else None
      end
  end.

(** [np.broadcast_shapes(s, t)]; [None] when the shapes do not agree. *)
Definition broadcast_shapes (s t : list nat) : option (list nat) :=
  option_map (@rev nat) (broadcast_rev (rev s) (rev t)).

(** Position, in an array of shape [s], of the element that broadcasting to
    shape [t] puts at position [j]. *)
Fixpoint index_rev (s t : list nat) (j : nat) : nat :=
  match s, t with
  | n :: s', m :: t' =>
      (if (n =? 1)%nat then 0 else j mod m) + n * index_rev s' t' (j / m)
  | _, _ => 0
  end%nat.

Definition src_index (s t : list nat) (j : nat) : nat :=
  index_rev (rev s) (rev t) j.

(** Element [j] of [v] broadcast to shape [t]. *)
Definition view (v : value) (t : list nat) (j : nat) : float :=
  nth (src_index (shape_of v) t j) (elements v) nan.

(** The result of a NumPy operation: an array, or a float64 scalar when the
    result has no dimension. *)
Definition np_result (t : list nat) (d : list float) : value :=
  match t with
  | [] => NpFloat64 (hd nan d)
  | _ => NdArray t d
  end.

(** ** Exceptions, warnings and the trace *)

Inductive exn : Type :=
| ValueError (msg : String.string)
| FloatingPointError (msg : String.string).

Inductive event : Type :=
| Warning (category msg : String.string)
| LogDomainCheck.

Definition trace := list event.

Inductive outcome (A : Type) : Type :=
| Returned (a : A)
| Raised (e : exn).
Arguments Raised {A} e.

Definition M (A : Type) : Type := trace -> outcome A * trace.

Definition ret {A} (a : A) : M A := fun tr => (Returned a, tr).

Definition bind {A B} (m : M A) (k : A -> M B) : M B :=
  fun tr =>
    match m tr with
    | (Returned a, tr') => k a tr'
    | (Raised e, tr') => (Raised e, tr')
    end.

Definition raise {A} (e : exn) : M A := fun tr => (Raised e, tr).

Definition emit (ev : event) : M unit := fun tr => (Returned tt, tr ++ [ev]).

(** [if b: body] *)
Definition when (b : bool) (body : M unit) : M unit :=
  if b then body else ret tt.

Declare Scope np_scope.
Delimit Scope np_scope with np.
Bind Scope np_scope with M.

Notation "x <- c1 ;; c2" := (bind c1 (fun x => c2))
  (at level 61, c1 at next level, right associativity) : np_scope.
Notation "c1 ;; c2" := (bind c1 (fun _ => c2))
  (at level 61, right associativity) : np_scope.

Definition val (v : value) : M value := ret v.
Coercion val : value >-> M.

(** ** Element-wise operations *)

(** A unary ufunc. *)
Definition ufunc1 (f : float -> float) (v : value) : value :=
  np_result (shape_of v) (map f (elements v)).

Definition broadcast_error : exn :=
  ValueError "operands could not be broadcast together".
(* NumPy's message goes on with the two shapes; only its head is kept. *)

(** A binary operator with a NumPy operand: the operands are broadcast to
    their common shape, or the operation raises. *)
Definition ufunc2 (op : float -> float -> float) (a b : value) : M value :=
  match broadcast_shapes (shape_of a) (shape_of b) with
  | None => raise broadcast_error
  | Some t =>
      ret (np_result t
             (map (fun j => op (view a t j) (view b t j)) (seq 0 (size t))))
  end.

(** Python evaluates the left operand, then the right one. *)
Definition binop (op : float -> float -> float) (a b : M value) : M value :=
  (x <- a ;; y <- b ;; ufunc2 op x y)%np.

Definition unop (f : float -> float) (a : M value) : M value :=
  (x <- a ;; ret (ufunc1 f x))%np.

Notation "a + b" := (binop PrimFloat.add a b) : np_scope.
Notation "a - b" := (binop PrimFloat.sub a b) : np_scope.
Notation "a * b" := (binop PrimFloat.mul a b) : np_scope.
Notation "a / b" := (binop PrimFloat.div a b) : np_scope.

(** ** The solver *)

Section Solver.

(** The float64 logarithm behind [np.log]. *)
Variable ln : float -> float.

(** The C library's [pow(x, 2.0)], which NumPy calls for [x ** 2] on a
    float64 scalar and Python on a float. *)
Variable pow2 : float -> float.

Definition np_log : M value -> M value := unop ln.

(** [v ** 2]. NumPy squares an array by its [square] loop, which
    multiplies each element by itself, and a result with no dimension
    decays to a float64 scalar as usual. The power of a scalar does not go
    through that loop: it is [pow(x, 2.0)]. *)
Definition power_2 (v : value) : value :=
  match v with
  | PyFloat x => PyFloat (pow2 x)
  | NpFloat64 x => NpFloat64 (pow2 x)
  | NdArray _ _ => ufunc1 (fun x => x * x) v
  end.

Definition np_power_2 (a : M value) : M value := (x <- a ;; ret (power_2 x))%np.

(** Constants used by Clamond's scheme *)
Definition _LOG10 : float := ln 10.0.
Definition _C1 : float := _LOG10 / 18.574.
Definition _C2 : float := ln (1.0 / 5.02) + ln _LOG10.
Definition _A : float := 1.151292546497022842.

Definition log_domain_msg : String.string :=
  "Log domain error: X1 + F <= 0 in iteration. Check R, K values (R>3 is recommended in the paper) or reduce iters.".

Definition _check_log_domain (X1 F_current : value) : M unit :=
  (emit LogDomainCheck ;;
   s <- X1 + F_current ;;
   when (np_any (fun x => x <=? 0.0) s)
     (raise (FloatingPointError log_domain_msg)))%np.

(** The body of the loop: one quartic iteration. *)
Definition quartic_iteration (X1 X2 F : value) : M value :=
  (_check_log_domain X1 F ;;
   E <- (np_log (X1 + F) + F - X2) / (1.0 + X1 + F) ;;
   F - (1.0 + X1 + F + 0.5 * E) * E * (X1 + F)
       / (1.0 + X1 + F + E * (1.0 + E / 3.0)))%np.

(** [for _ in range(n): F = body(F)] *)
Fixpoint for_range (n : nat) (body : value -> M value) (F : value) : M value :=
  match n with
  | O => ret F
  | S n' => (F' <- body F ;; for_range n' body F')%np
  end.

Definition f_clamond (R K : value) (iters : Z) : M value :=
  (let R := np_asarray R in
   let K := np_asarray K in
   when (np_any (fun x => x <=? 0) R)
     (raise (ValueError "Reynolds number R must be positive.")) ;;
   when (np_any (fun x => x <? 0) K)
     (raise (ValueError "Relative roughness K must be non-negative.")) ;;
   when (iters <? 0)%Z
     (raise (ValueError "iters must be >= 0.")) ;;
   when (np_any (fun x => x <? 2300) R)
     (emit (Warning "RuntimeWarning"
                    "Colebrook equation is for turbulent flow (R >= 2300).")) ;;
   X1 <- K * R * NpFloat64 _C1 ;;
   X2 <- np_log R + NpFloat64 _C2 ;;
   F <- X2 - 0.2 ;;
   F <- for_range (Z.to_nat iters) (quartic_iteration X1 X2) F ;;
   f <- np_power_2 (_A / F) ;;
   if (match shape_of f with [] => true | _ => false end)
        && np_isscalar R && np_isscalar K
   then ret (py_float f)
   else ret f)%np.

End Solver.

(** An executable scalar power: the correctly rounded square. The C
    library's [pow] agrees with it at most arguments, not at every one. *)
Definition pow2_ref (x : float) : float := x * x.

(** A scalar power that rounds correctly except at one argument, where it
    answers as glibc's [pow] does: [pow(0.19620200348353203, 2.0)] is
    0.03849522617095191 there, the float below the rounded product
    0.03849522617095192. *)
Definition pow2_off_once (x : float) : float :=
  if x =? 0.19620200348353203 then 0.03849522617095191 else x * x.

(** ** An executable logarithm

    [ln_ref x] computes the natural logarithm of a positive finite [x] in
    fixed point with [frac_bits] fractional bits, from
    [ln (y * 2^k) = 2 * atanh ((y - 1) / (y + 1)) + k * ln 2], and rounds the
    result once to binary64. On the other inputs it answers as C's [log]
    does: [nan] for [nan] and the negative numbers, [-inf] for zero and
    [+inf] for [+inf]. *)

Module LnRef.

Open Scope Z_scope.

Definition frac_bits : Z := 192.
Definition one : Z := 2 ^ frac_bits.

(** [z + z^3/3 + z^5/5 + ...], [n] terms from the one in [z^k / k]. *)
Fixpoint atanh_terms (n : nat) (z2 zk k : Z) : Z :=
  match n with
  | O => 0
  | S n' => zk / k + atanh_terms n' z2 (zk * z2 / one) (k + 2)
  end.

Definition atanh_fix (z : Z) : Z := atanh_terms 80 (z * z / one) z 1.

(** [ln 2 = 2 * atanh (1/3)] *)
Definition ln2_fix : Z := Eval vm_compute in 2 * atanh_fix (one / 3).

(** [sqrt 2], rounded down. *)
Definition sqrt2_fix : Z := Eval vm_compute in Z.sqrt (2 * one * one).

(** [ln (m * 2^e)] *)
Definition ln_fix (m : positive) (e : Z) : Z :=
  let b := Z.log2 (Z.pos m) in
  let y := Z.shiftl (Z.pos m) (frac_bits - b) in
  let '(y, k) := if sqrt2_fix <? y then (y / 2, e + b + 1) else (y, e + b) in
  2 * atanh_fix ((y - one) * one / (y + one)) + k * ln2_fix.

Definition ln_ref (x : float) : float :=
  match Prim2SF x with
  | S754_nan => nan
  | S754_zero _ => neg_infinity
  | S754_infinity false => infinity
  | S754_infinity true => nan
  | S754_finite true _ _ => nan
  | S754_finite false m e =>
      SF2Prim (binary_normalize prec emax (ln_fix m e) (- frac_bits) false)
  end.

End LnRef.

(** ** The scheme on one element

    What the array code does to each element, as the specification words
    it: [X1 = K * R * C1], [X2 = ln R + C2], [F] starts at [X2 - 0.2], a
    refinement step corrects [F] by the term [E], and the friction factor is
    [(A / F) ** 2]. *)

(** The rounded product of a float by itself. *)
Definition square (x : float) : float := x * x.

(** How a value of shape [t] is squared: a float64 scalar, of shape [()],
    by the scalar power [pw], the elements of an array by [square]. *)
Definition squaring (pw : float -> float) (t : list nat) : float -> float :=
  match t with
  | [] => pw
  | _ :: _ => square
  end.

Section Scheme.

Variable ln : float -> float.

(** The squaring of the final mapping. *)
Variable sq : float -> float.

(** The constants C1, C2 and A of the scheme. *)
Variables c1 c2 a : float.

Definition X1_of (K R : float) : float := K * R * c1.

Definition X2_of (R : float) : float := ln R + c2.

Definition F_init (R : float) : float := X2_of R - 0.2.

Definition correction (X1 X2 F : float) : float :=
  (ln (X1 + F) + F - X2) / (1 + X1 + F).

Definition refine (X1 X2 F : float) : float :=
  let E := correction X1 X2 F in
  F - (1 + X1 + F + 0.5 * E) * E * (X1 + F) / (1 + X1 + F + E * (1 + E / 3)).

(** [F] after [n] refinement steps. *)
Fixpoint F_after (n : nat) (X1 X2 F : float) : float :=
  match n with
  | O => F
  | S n' => F_after n' X1 X2 (refine X1 X2 F)
  end.

(** The test of [_check_log_domain] on one element: it fails on
    [X1 + F <= 0]. *)
Definition log_arg_ok (X1 F : float) : bool := negb (X1 + F <=? 0).

(** The test holds at the start of each of [n] steps from [F]. *)
Fixpoint domain_ok (n : nat) (X1 X2 F : float) : bool :=
  match n with
  | O => true
  | S n' => log_arg_ok X1 F && domain_ok n' X1 X2 (refine X1 X2 F)
  end.

Definition friction (F : float) : float := sq (a / F).

Definition scheme_value (R K : float) (n : nat) : float :=
  friction (F_after n (X1_of K R) (X2_of R) (F_init R)).

Definition scheme_defined (R K : float) (n : nat) : bool :=
  domain_ok n (X1_of K R) (X2_of R) (F_init R).

End Scheme.

(** The constants as the specification gives them. *)
Definition spec_C1 (ln : float -> float) : float := ln 10 / 18.574.
Definition spec_C2 (ln : float -> float) : float := ln (ln 10 / 5.02).
Definition spec_A (ln : float -> float) : float := 0.5 * ln 10.

(** Clamond's scheme with the specification's constants, the final
    mapping squaring with [sq]. *)
Definition clamond_scheme (ln sq : float -> float) : float -> float -> nat -> float :=
  scheme_value ln sq (spec_C1 ln) (spec_C2 ln) (spec_A ln).

Definition clamond_defined (ln : float -> float) : float -> float -> nat -> bool :=
  scheme_defined ln (spec_C1 ln) (spec_C2 ln).

(** The logarithm is correctly rounded at the arguments at which the
    constants are computed: at 10, at [1 / 5.02] and [ln 10], where the
    module takes it, and at [ln 10 / 5.02], where the specification does. *)
Definition log_exact_at_constants (ln : float -> float) : Prop :=
  ln 10 = 2.302585092994046
  /\ ln (1.0 / 5.02) = -1.6134299337036377
  /\ ln 2.302585092994046 = 0.834032445247956
  /\ ln (2.302585092994046 / 5.02) = -0.7793974884556818.

(** ** Vocabulary of the statements *)

(** The array of shape [t] whose element [j] is [h j]. *)
Definition tab (t : list nat) (h : nat -> float) : value :=
  np_result t (map h (seq 0 (size t))).

(** [s] broadcasts to [t]: aligned on the last dimension, each dimension of
    [s] is that of [t] or 1. *)
Fixpoint fits_rev (s t : list nat) : Prop :=
  match s, t with
  | [], _ => True
  | n :: s', m :: t' => (n = m \/ n = 1%nat) /\ fits_rev s' t'
  | _ :: _, [] => False
  end.

Definition broadcasts_to (s t : list nat) : Prop := fits_rev (rev s) (rev t).

(** The three errors of the input validation, and the error of the
    log-domain check. *)
Definition InvalidArgument (e : exn) : Prop :=
  e = ValueError "Reynolds number R must be positive."
  \/ e = ValueError "Relative roughness K must be non-negative."
  \/ e = ValueError "iters must be >= 0.".

Definition DomainError : exn := FloatingPointError log_domain_msg.

Definition advisory : event :=
  Warning "RuntimeWarning" "Colebrook equation is for turbulent flow (R >= 2300).".

(** The input passes the validation of lines 52 to 57. *)
Definition accepted (R K : value) (iters : Z) : bool :=
  negb (np_any (fun x => x <=? 0) R)
  && negb (np_any (fun x => x <? 0) K)
  && negb (iters <? 0)%Z.

(** The number of calls of [_check_log_domain] in a loop of [n] steps over
    [N] elements: one per step, up to the first step whose check fails. *)
Fixpoint checks_performed (ln : float -> float) (n N : nat)
    (x1 x2 f : nat -> float) : nat :=
  match n with
  | O => O
  | S n' =>
      S (if forallb (fun j => log_arg_ok (x1 j) (f j)) (seq 0 N)
         then checks_performed ln n' N x1 x2
                (fun j => refine ln (x1 j) (x2 j) (f j))
         else O)
  end.

(** A computation that returns [x] and emits nothing, seen at shape [t]:
    [x] broadcasts to [t] and its element at position [j] is [g j]. *)
Definition Leaf (t : list nat) (m : M value) (g : nat -> float) : Prop :=
  exists x, m = ret x /\ broadcasts_to (shape_of x) t
            /\ forall j, (j < size t)%nat -> view x t j = g j.

(** A computation that returns the array [tab t g] and emits nothing. *)
Definition Tab (t : list nat) (m : M value) (g : nat -> float) : Prop :=
  m = ret (tab t g).

(** [X1], [X2] and the initial [F] at position [j] of the shape [t] to
    which [R] and [K] broadcast. *)
Definition X1_at (ln : float -> float) (R K : value) (t : list nat) (j : nat) : float :=
  X1_of (_C1 ln) (view K t j) (view R t j).

Definition X2_at (ln : float -> float) (R : value) (t : list nat) (j : nat) : float :=
  X2_of ln (_C2 ln) (view R t j).

Definition F_init_at (ln : float -> float) (R : value) (t : list nat) (j : nat) : float :=
  F_init ln (_C2 ln) (view R t j).

(** The outcome of the numerical part (lines 63 to 91) on arrays that
    broadcast to [t], with [n] iterations: without iteration the initial
    guess, of the shape of [R], is mapped to the friction factor; with
    iterations each element goes through the scheme, and the log-domain
    check fails the call when it fails on one element. *)
Definition solver_outcome (ln pw : float -> float) (R K : value) (t : list nat)
    (n : nat) : outcome value :=
  match n with
  | O =>
      Returned
        (tab (shape_of R)
           (fun i => friction (squaring pw (shape_of R)) _A
                       (F_init ln (_C2 ln) (nth i (elements R) nan))))
  | S _ =>
      if forallb
           (fun j => scheme_defined ln (_C1 ln) (_C2 ln) (view R t j) (view K t j) n)
           (seq 0 (size t))
      then Returned
             (tab t (fun j =>
                scheme_value ln (squaring pw t) (_C1 ln) (_C2 ln) _A
                  (view R t j) (view K t j) n))
      else Raised DomainError
  end.

(** The number of log-domain checks of that part. *)
Definition solver_checks (ln : float -> float) (R K : value) (t : list nat)
    (n : nat) : nat :=
  checks_performed ln n (size t) (X1_at ln R K t) (X2_at ln R t) (F_init_at ln R t).

(** The advisory warning of a call on [R], if it warns. *)
Definition advisories (R : value) : list event :=
  if np_any (fun x => x <? 2300) R then [advisory] else [].

(** What a call emits, started on the empty trace. *)
Definition emitted {A} (m : M A) : list event := snd (m []).

Definition result {A} (m : M A) : outcome A := fst (m []).

(** [regular P m]: [m] appends what it emits to the trace it is started on,
    its outcome does not depend on that trace, and it raises only
    exceptions of [P]. *)
Definition regular {A} (P : exn -> Prop) (m : M A) : Prop :=
  (forall tr, m tr = (result m, tr ++ emitted m))
  /\ (forall e, result m = Raised e -> P e).


(** The exceptions of the numerical part: NumPy's, for shapes that do not
    broadcast, and the one of the log-domain check. *)
Definition numerical (e : exn) : Prop :=
  e = broadcast_error \/ e = DomainError.

(** ** The example script

    [examplescript.py]: the two helper formulas, the table of district
    heating scenarios, and what [run_scenarios] computes for one scenario
    before it prints the row. The helpers work on Python floats, whose
    division raises [ZeroDivisionError] on a zero divisor; the friction
    factor they are given comes from the solver and is a NumPy value, whose
    arithmetic with a Python float is NumPy's, element by element, and
    raises nothing. *)

Inductive script_exn : Type :=
| ZeroDivisionError (msg : String.string)
| FromSolver (e : exn)
| FromNumPy (e : exn).

Inductive script_outcome (A : Type) : Type :=
| Done (a : A)
| Failed (e : script_exn).
Arguments Failed {A} e.

(** [x / y] on Python floats. *)
Definition py_truediv (x y : float) : script_outcome float :=
  if y =? 0 then Failed (ZeroDivisionError "float division by zero")
  else Done (x / y).

(** [a * y] for a Python float [y]. *)
Definition py_mul (a : value) (y : float) : value :=
  match a with
  | PyFloat x => PyFloat (x * y)
  | _ => ufunc1 (fun x => x * y) a
  end.

(** [a / y] for a Python float [y]. *)
Definition py_div (a : value) (y : float) : script_outcome value :=
  match a with
  | PyFloat x =>
      match py_truediv x y with
      | Done q => Done (PyFloat q)
      | Failed e => Failed e
      end
  | _ => Done (ufunc1 (fun x => x / y) a)
  end.

Definition reynolds_number (rho V D mu : float) : script_outcome float :=
  py_truediv (rho * V * D) mu.

Definition pressure_gradient (f : value) (rho V D : float) : script_outcome value :=
  py_div (py_mul (py_mul (py_mul f rho) V) V) (2.0 * D).

(** DH-oriented constants *)
Definition D_SERVICE : float := 0.050.
Definition D_FEEDER : float := 0.100.
Definition D_MAIN : float := 0.200.

Definition EPS_NEW_STEEL : float := 0.00005.
Definition EPS_OLD_STEEL : float := 0.00020.

Record water : Type := { rho : float; mu : float }.

Definition WATER_20C : water := {| rho := 998.0; mu := 1.002e-3 |}.
Definition WATER_60C : water := {| rho := 983.0; mu := 0.467e-3 |}.
Definition WATER_80C : water := {| rho := 971.0; mu := 0.355e-3 |}.

(** A scenario: the dictionary with the keys [name], [D], [epsilon], [V],
    [rho] and [mu]. *)
Record scenario : Type := {
  sc_name : String.string;
  sc_D : float;
  sc_epsilon : float;
  sc_V : float;
  sc_rho : float;
  sc_mu : float
}.

(** [dict(name=..., D=..., epsilon=..., V=..., **w)] *)
Definition scenario_of (name : String.string) (D epsilon V : float) (w : water)
    : scenario :=
  {| sc_name := name; sc_D := D; sc_epsilon := epsilon; sc_V := V;
     sc_rho := rho w; sc_mu := mu w |}.

Definition build_scenarios : list scenario :=
  [ scenario_of "S1: Service pipe, new steel, moderate V, 60°C"
      D_SERVICE EPS_NEW_STEEL 1.0 WATER_60C;
    scenario_of "S2: Feeder pipe, new steel, higher V, 60°C"
      D_FEEDER EPS_NEW_STEEL 1.5 WATER_60C;
    scenario_of "S3: Main pipe, new steel, typical V, 60°C"
      D_MAIN EPS_NEW_STEEL 1.5 WATER_60C;
    scenario_of "S4: Service pipe, OLD steel (rough), moderate V, 60°C"
      D_SERVICE EPS_OLD_STEEL 1.0 WATER_60C;
    scenario_of "S5: Feeder pipe, new steel, same V as S2 but 20°C (higher viscosity)"
      D_FEEDER EPS_NEW_STEEL 1.5 WATER_20C;
    scenario_of "S6: Feeder pipe, new steel, same V as S2 but 80°C (lower viscosity)"
      D_FEEDER EPS_NEW_STEEL 1.5 WATER_80C ].

(** What the script computes for one scenario. *)
Record row : Type := {
  row_R : float;
  row_K : float;
  row_f : value;
  row_dpdx : value
}.

(** The body of the loop of [run_scenarios], lines 130 to 139: the
    Reynolds number and the relative roughness of the scenario, the call of
    the solver on them and the pressure gradient. The solver's events go to
    the trace; an exception of a step is the outcome. *)
Definition scenario_row (ln pw : float -> float) (iters : Z) (sc : scenario)
    (tr : trace) : script_outcome row * trace :=
  let D := sc_D sc in
  let eps := sc_epsilon sc in
  let V := sc_V sc in
  let rho := sc_rho sc in
  let mu := sc_mu sc in
  match reynolds_number rho V D mu with
  | Failed e => (Failed e, tr)
  | Done R =>
      match py_truediv eps D with
      | Failed e => (Failed e, tr)
      | Done K =>
          match f_clamond ln pw (PyFloat R) (PyFloat K) iters tr with
          | (Raised e, tr') => (Failed (FromSolver e), tr')
          | (Returned f, tr') =>
              match pressure_gradient f rho V D with
              | Failed e => (Failed e, tr')
              | Done dpdx =>
                  (Done {| row_R := R; row_K := K; row_f := f; row_dpdx := dpdx |},
                   tr')
              end
          end
      end
  end.

(** [if v != 0]: the truth value of the comparison. A scalar differs from
    zero or not; of an array that has not exactly one element NumPy refuses
    to tell. *)
Definition if_ne_0 (v : value) : script_outcome bool :=
  match elements v with
  | [x] => Done (negb (x =? 0))
  | _ => Failed (FromNumPy (ValueError "The truth value of an array is ambiguous."))
  end.

(** [abs(v)] *)
Definition np_abs : M value -> M value := unop PrimFloat.abs.

(** What [compare_iterations] computes before it prints. *)
Record comparison : Type := {
  cmp_R : float;
  cmp_K : float;
  cmp_f1 : value;
  cmp_f2 : value;
  cmp_dp1 : value;
  cmp_dp2 : value;
  cmp_rel : value
}.

(** [compare_iterations], lines 154 to 171, without the lines it prints:
    the friction factor of one scenario with one and with two iterations,
    the two pressure gradients and the relative difference
    [abs(f2 - f1) / f2 if f2 != 0 else np.nan]. *)
Definition compare_iterations_values (ln pw : float -> float) (tr : trace)
    : script_outcome comparison * trace :=
  let sc := scenario_of "Feeder pipe, new steel, V=1.5 m/s, 60°C"
              D_FEEDER EPS_NEW_STEEL 1.5 WATER_60C in
  let D := sc_D sc in
  let eps := sc_epsilon sc in
  let V := sc_V sc in
  let rho := sc_rho sc in
  let mu := sc_mu sc in
  match reynolds_number rho V D mu with
  | Failed e => (Failed e, tr)
  | Done R =>
  match py_truediv eps D with
  | Failed e => (Failed e, tr)
  | Done K =>
  match f_clamond ln pw (PyFloat R) (PyFloat K) 1 tr with
  | (Raised e, tr1) => (Failed (FromSolver e), tr1)
  | (Returned f1, tr1) =>
  match f_clamond ln pw (PyFloat R) (PyFloat K) 2 tr1 with
  | (Raised e, tr2) => (Failed (FromSolver e), tr2)
  | (Returned f2, tr2) =>
  match pressure_gradient f1 rho V D with
  | Failed e => (Failed e, tr2)
  | Done dp1 =>
  match pressure_gradient f2 rho V D with
  | Failed e => (Failed e, tr2)
  | Done dp2 =>
  match if_ne_0 f2 with
  | Failed e => (Failed e, tr2)
  | Done true =>
      match (np_abs (val f2 - val f1) / val f2)%np tr2 with
      | (Raised e, tr3) => (Failed (FromNumPy e), tr3)
      | (Returned rel, tr3) =>
          (Done {| cmp_R := R; cmp_K := K; cmp_f1 := f1; cmp_f2 := f2;
                   cmp_dp1 := dp1; cmp_dp2 := dp2; cmp_rel := rel |}, tr3)
      end
  | Done false =>
      (Done {| cmp_R := R; cmp_K := K; cmp_f1 := f1; cmp_f2 := f2;
               cmp_dp1 := dp1; cmp_dp2 := dp2; cmp_rel := PyFloat nan |}, tr2)
  end end end end end end end.

(** No element of [v] is negative: each is positive, a zero, [+inf] or
    NaN. *)
Definition none_negative (v : value) : Prop :=
  forall y, In y (elements v) -> (y <? 0) = false.

(** The sign bit of a float that is not NaN. *)
Definition sf_sign (x : spec_float) : bool :=
  match x with
  | S754_zero s | S754_infinity s | S754_finite s _ _ => s
  | S754_nan => false
  end.

(** ** The model on the inputs of the example script

    With the reference logarithm and a correctly rounded power the model
    gives, digit for digit, the floats that the Python arithmetic of the
    solver gives on these inputs. *)

Example constants_with_ln_ref :
  (_LOG10 LnRef.ln_ref, _C1 LnRef.ln_ref, _C2 LnRef.ln_ref)
  = (2.302585092994046, 0.12396818633541756, -0.7793974884556818).
Proof. vm_compute. reflexivity. Qed.

Example scalar_call :
  f_clamond LnRef.ln_ref pow2_ref (PyFloat 7e5) (PyFloat 0.01) 2 []
  = (Returned (NpFloat64 0.037990824071722655), [LogDomainCheck; LogDomainCheck]).
Proof. vm_compute. reflexivity. Qed.

Example array_call :
  f_clamond LnRef.ln_ref pow2_ref (NdArray [3%nat] [3e3; 7e5; 1e7]) (PyFloat 0.01) 2 []
  = (Returned
       (NdArray [3%nat]
          [0.051868360850602514; 0.037990824071722655; 0.037909825751806597]),
     [LogDomainCheck; LogDomainCheck]).
Proof. vm_compute. reflexivity. Qed.

(** R of shape (3,) against K of shape (2, 1): the result has shape (2, 3). *)
Example broadcast_call :
  f_clamond LnRef.ln_ref pow2_ref (NdArray [3%nat] [3e3; 7e5; 1e7])
    (NdArray [2%nat; 1%nat] [0.01; 0.02]) 2 []
  = (Returned
       (NdArray [2%nat; 3%nat]
          [0.051868360850602514; 0.037990824071722655; 0.037909825751806597;
           0.059287422395487101; 0.048693472570641279; 0.04864141524272924]),
     [LogDomainCheck; LogDomainCheck]).
Proof. vm_compute. reflexivity. Qed.

(** Shapes (3,) and (2,) do not broadcast. *)
Example mismatched_call :
  f_clamond LnRef.ln_ref pow2_ref (NdArray [3%nat] [3e3; 7e5; 1e7])
    (NdArray [2%nat] [0.01; 0.02]) 2 []
  = (Raised broadcast_error, []).
Proof. vm_compute. reflexivity. Qed.

(** A laminar Reynolds number: the advisory, then the result. *)
Example laminar_call :
  f_clamond LnRef.ln_ref pow2_ref (PyFloat 2299) (PyFloat 0) 2 []
  = (Returned (NpFloat64 0.047289847920924159),
     [advisory; LogDomainCheck; LogDomainCheck]).
Proof. vm_compute. reflexivity. Qed.

(** A Reynolds number far below the range of the method: the first check
    fails. *)
Example tiny_R_call :
  f_clamond LnRef.ln_ref pow2_ref (PyFloat 1e-300) (PyFloat 0) 2 []
  = (Raised DomainError, [advisory; LogDomainCheck]).
Proof. vm_compute. reflexivity. Qed.

(** Finite inputs whose product overflows: [K * R] is [+inf] and the result
    is NaN. *)
Example overflowing_call :
  f_clamond LnRef.ln_ref pow2_ref (PyFloat 1e308) (PyFloat 1e308) 1 []
  = (Returned (NpFloat64 nan), [LogDomainCheck]).
Proof. vm_compute. reflexivity. Qed.

(** ** Shapes and positions *)

Lemma size_cons n s : size (n :: s) = (n * size s)%nat.
Proof. reflexivity. Qed.

Lemma size_app s t : size (s ++ t) = (size s * size t)%nat.
Proof.
  induction s as [|n s IH]; cbn [app]; rewrite ?size_cons.
  - cbn. lia.
  - rewrite IH. lia.
Qed.

Lemma size_rev s : size (rev s) = size s.
Proof.
  induction s as [|n s IH]; [reflexivity|].
  cbn [rev]. rewrite size_app, IH, !size_cons. cbn. lia.
Qed.

Lemma fits_rev_refl s : fits_rev s s.
Proof. induction s; cbn; auto. Qed.

Lemma fits_rev_nil_inv s : fits_rev s [] -> s = [].
Proof. destruct s; cbn; [reflexivity | contradiction]. Qed.

Lemma broadcast_rev_fits s : forall t u,
  broadcast_rev s t = Some u -> fits_rev s u /\ fits_rev t u.
Proof.
  induction s as [|n s IH]; intros [|m t] u; cbn [broadcast_rev]; intros H.
  - inversion H; cbn; auto.
  - inversion H; subst. split; [exact I | apply fits_rev_refl].
  - inversion H; subst. split; [apply fits_rev_refl | exact I].
  - destruct (broadcast_rev s t) as [w|] eqn:Hw; [|discriminate].
    destruct (IH _ _ Hw) as [Hs Ht].
    destruct (Nat.eqb_spec n m) as [->|Hnm].
    { inversion H; subst. cbn; auto. }
    destruct (Nat.eqb_spec n 1) as [->|Hn1].
    { inversion H; subst. cbn; auto. }
    destruct (Nat.eqb_spec m 1) as [->|Hm1]; [|discriminate].
    inversion H; subst. cbn; auto.
Qed.

Lemma fits_rev_broadcast s : forall t,
  fits_rev s t -> broadcast_rev s t = Some t /\ broadcast_rev t s = Some t.
Proof.
  induction s as [|n s IH]; intros [|m t]; cbn [fits_rev broadcast_rev].
  - auto.
  - auto.
  - contradiction.
  - intros [Hn Hs]. destruct (IH _ Hs) as [-> ->].
    destruct Hn as [->| ->].
    + rewrite Nat.eqb_refl. auto.
    + rewrite Nat.eqb_refl.
      destruct (Nat.eqb_spec 1 m) as [<-|Hm]; [auto|].
      destruct (Nat.eqb_spec m 1) as [->|_]; [congruence|]. auto.
Qed.

Lemma index_rev_same s : forall j,
  (j < size s)%nat -> index_rev s s j = j.
Proof.
  induction s as [|n s IH]; intros j Hj; cbn [index_rev].
  - cbn in Hj. lia.
  - rewrite size_cons in Hj.
    assert (Hn : n <> 0%nat) by (intros ->; lia).
    rewrite IH by (apply Nat.Div0.div_lt_upper_bound; lia).
    destruct (Nat.eqb_spec n 1) as [->|_].
    + rewrite Nat.div_1_r. lia.
    + rewrite (Nat.div_mod_eq j n) at 3. lia.
Qed.

Lemma index_rev_lt s : forall t j,
  fits_rev s t -> (j < size t)%nat -> (index_rev s t j < size s)%nat.
Proof.
  induction s as [|n s IH]; intros [|m t] j; cbn [fits_rev index_rev];
    try (cbn; lia).
  intros [Hn Hs] Hj. rewrite size_cons in Hj |- *.
  assert (Hm : m <> 0%nat) by (intros ->; lia).
  assert (Hq : (index_rev s t (j / m) < size s)%nat).
  { apply IH; [assumption|]. apply Nat.Div0.div_lt_upper_bound; lia. }
  destruct Hn as [->| ->].
  - pose proof (Nat.mod_upper_bound j m Hm).
    destruct (m =? 1)%nat; nia.
  - cbn [Nat.eqb]. nia.
Qed.

Lemma broadcasts_to_refl s : broadcasts_to s s.
Proof. apply fits_rev_refl. Qed.

Lemma broadcasts_to_nil t : broadcasts_to [] t.
Proof. exact I. Qed.

Lemma broadcast_shapes_fits s t u :
  broadcast_shapes s t = Some u -> broadcasts_to s u /\ broadcasts_to t u.
Proof.
  unfold broadcast_shapes, broadcasts_to.
  destruct (broadcast_rev (rev s) (rev t)) as [w|] eqn:Hw; [|discriminate].
  cbn. intros H; inversion H; subst. rewrite rev_involutive.
  eapply broadcast_rev_fits; eassumption.
Qed.

Lemma broadcasts_to_shapes s t :
  broadcasts_to s t ->
  broadcast_shapes s t = Some t /\ broadcast_shapes t s = Some t.
Proof.
  unfold broadcast_shapes, broadcasts_to. intros H.
  destruct (fits_rev_broadcast _ _ H) as [-> ->]. cbn.
  rewrite rev_involutive. auto.
Qed.

Lemma src_index_same t j : (j < size t)%nat -> src_index t t j = j.
Proof. intros H. apply index_rev_same. now rewrite size_rev. Qed.

Lemma src_index_lt s t j :
  broadcasts_to s t -> (j < size t)%nat -> (src_index s t j < size s)%nat.
Proof.
  intros Hs Hj. unfold src_index. rewrite <- (size_rev s).
  apply index_rev_lt; [assumption | now rewrite size_rev].
Qed.

Lemma src_index_nil t j : src_index [] t j = 0%nat.
Proof. reflexivity. Qed.

(** ** Arrays given by their elements *)

Lemma nth_map_seq (h : nat -> float) n i :
  (i < n)%nat -> nth i (map h (seq 0 n)) nan = h i.
Proof.
  intros Hi. rewrite (nth_indep _ nan (h 0%nat)) by now rewrite length_map, length_seq.
  rewrite map_nth, seq_nth by assumption. reflexivity.
Qed.

Lemma map_nth_seq (f : float -> float) d :
  map f d = map (fun i => f (nth i d nan)) (seq 0 (length d)).
Proof.
  apply (nth_ext _ _ nan nan).
  - now rewrite !length_map, length_seq.
  - intros i Hi. rewrite length_map in Hi.
    rewrite nth_map_seq by assumption.
    rewrite (nth_indep _ nan (f nan)) by now rewrite length_map.
    apply map_nth.
Qed.

Lemma shape_of_result t d : shape_of (np_result t d) = t.
Proof. destruct t; reflexivity. Qed.

Lemma shape_of_tab t h : shape_of (tab t h) = t.
Proof. apply shape_of_result. Qed.

Lemma elements_tab t h : elements (tab t h) = map h (seq 0 (size t)).
Proof. destruct t; reflexivity. Qed.

Lemma tab_ext t h h' :
  (forall j, (j < size t)%nat -> h j = h' j) -> tab t h = tab t h'.
Proof.
  intros H. unfold tab. f_equal. apply map_ext_in.
  intros j Hj. apply in_seq in Hj. apply H. lia.
Qed.

Lemma view_tab s t h j :
  broadcasts_to s t -> (j < size t)%nat ->
  view (tab s h) t j = h (src_index s t j).
Proof.
  intros Hs Hj. unfold view. rewrite shape_of_tab, elements_tab.
  apply nth_map_seq. now apply src_index_lt.
Qed.

Lemma view_tab_same t h j : (j < size t)%nat -> view (tab t h) t j = h j.
Proof.
  intros Hj. rewrite view_tab by (auto using broadcasts_to_refl).
  now rewrite src_index_same.
Qed.

Lemma view_asarray v t j : view (np_asarray v) t j = view v t j.
Proof. reflexivity. Qed.

Lemma ufunc1_tab f t h : ufunc1 f (tab t h) = tab t (fun j => f (h j)).
Proof.
  unfold ufunc1. rewrite shape_of_tab, elements_tab, map_map. reflexivity.
Qed.

Lemma ufunc1_elements f v :
  well_formed v ->
  ufunc1 f v = tab (shape_of v) (fun i => f (nth i (elements v) nan)).
Proof.
  intros Hv. unfold ufunc1, tab. rewrite <- Hv. f_equal. apply map_nth_seq.
Qed.

(** ** Computations that only return *)

Lemma bind_ret_l {A B} (a : A) (k : A -> M B) : bind (ret a) k = k a.
Proof. reflexivity. Qed.

Lemma Leaf_PyFloat t c : Leaf t (val (PyFloat c)) (fun _ => c).
Proof.
  exists (PyFloat c). split; [reflexivity|]. split; [exact I|]. reflexivity.
Qed.

Lemma Leaf_NpFloat64 t c : Leaf t (val (NpFloat64 c)) (fun _ => c).
Proof.
  exists (NpFloat64 c). split; [reflexivity|]. split; [exact I|]. reflexivity.
Qed.

Lemma Tab_val t g : Tab t (val (tab t g)) g.
Proof. reflexivity. Qed.

Lemma Tab_broadcast s t m h :
  Tab s m h -> broadcasts_to s t -> Leaf t m (fun j => h (src_index s t j)).
Proof.
  intros -> Hs. exists (tab s h). split; [reflexivity|].
  rewrite shape_of_tab. split; [assumption|].
  intros j Hj. now apply view_tab.
Qed.

Lemma Tab_Leaf t m g : Tab t m g -> Leaf t m g.
Proof.
  intros -> . exists (tab t g). split; [reflexivity|].
  rewrite shape_of_tab. split; [apply broadcasts_to_refl|].
  intros j Hj. now apply view_tab_same.
Qed.

Lemma ufunc2_shapes op x y t :
  broadcast_shapes (shape_of x) (shape_of y) = Some t ->
  ufunc2 op x y = ret (tab t (fun j => op (view x t j) (view y t j))).
Proof. unfold ufunc2. intros ->. reflexivity. Qed.

Lemma binop_first op x y t :
  broadcast_shapes (shape_of x) (shape_of y) = Some t ->
  Tab t (binop op (val x) (val y)) (fun j => op (view x t j) (view y t j)).
Proof. intros H. unfold Tab, binop, val. rewrite !bind_ret_l. now apply ufunc2_shapes. Qed.

Lemma binop_TL op t a b ga gb :
  Tab t a ga -> Leaf t b gb ->
  Tab t (binop op a b) (fun j => op (ga j) (gb j)).
Proof.
  intros -> (y & -> & Hy & Hv). unfold Tab, binop. rewrite !bind_ret_l.
  rewrite (ufunc2_shapes op (tab t ga) y (t:=t)).
  - f_equal. apply tab_ext. intros j Hj.
    now rewrite view_tab_same, Hv.
  - rewrite shape_of_tab. now apply broadcasts_to_shapes.
Qed.

Lemma binop_LT op t a b ga gb :
  Leaf t a ga -> Tab t b gb ->
  Tab t (binop op a b) (fun j => op (ga j) (gb j)).
Proof.
  intros (x & -> & Hx & Hv) ->. unfold Tab, binop. rewrite !bind_ret_l.
  rewrite (ufunc2_shapes op x (tab t gb) (t:=t)).
  - f_equal. apply tab_ext. intros j Hj.
    now rewrite view_tab_same, Hv.
  - rewrite shape_of_tab. now apply broadcasts_to_shapes.
Qed.

Lemma unop_T f t a g : Tab t a g -> Tab t (unop f a) (fun j => f (g j)).
Proof.
  intros ->. unfold Tab, unop. rewrite bind_ret_l. now rewrite ufunc1_tab.
Qed.

Lemma unop_elements f v :
  well_formed v ->
  Tab (shape_of v) (unop f (val v)) (fun i => f (nth i (elements v) nan)).
Proof.
  intros Hv. unfold Tab, unop, val. rewrite bind_ret_l.
  now rewrite ufunc1_elements.
Qed.

(** Evaluation of an arithmetic expression over arrays of shape [t]. *)
Ltac solve_leaf :=
  first [ eassumption | apply Leaf_PyFloat | apply Leaf_NpFloat64
        | apply Tab_Leaf; solve_tab ]
with solve_tab :=
  lazymatch goal with
  | |- Tab _ (binop _ _ _) _ =>
      first [ eapply binop_TL; [solve_tab | solve_leaf]
            | eapply binop_LT; [solve_leaf | solve_tab] ]
  | |- Tab _ (unop _ _) _ => eapply unop_T; solve_tab
  | |- Tab _ (val (tab _ _)) _ => apply Tab_val
  | |- Tab _ _ _ => eassumption
  end.

Lemma existsb_map {A B} (p : B -> bool) (h : A -> B) l :
  existsb p (map h l) = existsb (fun j => p (h j)) l.
Proof. induction l as [|x l IH]; cbn; [reflexivity | now rewrite IH]. Qed.

Lemma existsb_negb_forallb {A} (p : A -> bool) l :
  existsb p l = negb (forallb (fun j => negb (p j)) l).
Proof.
  induction l as [|x l IH]; cbn; [reflexivity|].
  rewrite IH. now destruct (p x).
Qed.

Lemma forallb_andb {A} (p q : A -> bool) l :
  forallb (fun j => p j && q j) l = forallb p l && forallb q l.
Proof.
  induction l as [|x l IH]; cbn; [reflexivity|].
  rewrite IH. destruct (p x), (q x), (forallb p l); reflexivity.
Qed.

Lemma forallb_true {A} (l : list A) : forallb (fun _ => true) l = true.
Proof. induction l; cbn; auto. Qed.

(** ** The loop *)

Section Loop.

Variable ln : float -> float.

(** The shape of [X1], and [X1] and [X2] element by element. *)
Variable t : list nat.
Variables x1 x2 : nat -> float.
Variable X2 : value.
Hypothesis HX2 : Leaf t (val X2) x2.

Local Notation "'all_elements' p" := (forallb p (seq 0 (size t))) (at level 10, p at level 9).

Lemma check_log_domain_run F f tr :
  Leaf t (val F) f ->
  _check_log_domain (tab t x1) F tr =
  (if all_elements (fun j => log_arg_ok (x1 j) (f j))
   then Returned tt else Raised DomainError,
   tr ++ [LogDomainCheck]).
Proof.
  intros HF.
  assert (Hs : Tab t (val (tab t x1) + val F)%np (fun j => x1 j + f j))
    by solve_tab.
  unfold _check_log_domain, bind at 1, emit.
  unfold bind at 1. rewrite Hs. unfold ret at 1.
  unfold np_any. rewrite elements_tab, existsb_map, existsb_negb_forallb.
  unfold log_arg_ok.
  destruct (forallb _ _); reflexivity.
Qed.

Lemma quartic_iteration_run F f tr :
  Leaf t (val F) f ->
  quartic_iteration ln (tab t x1) X2 F tr =
  (if all_elements (fun j => log_arg_ok (x1 j) (f j))
   then Returned (tab t (fun j => refine ln (x1 j) (x2 j) (f j)))
   else Raised DomainError,
   tr ++ [LogDomainCheck]).
Proof.
  intros HF. unfold quartic_iteration, bind at 1.
  rewrite (check_log_domain_run tr HF).
  destruct (forallb _ _); [|reflexivity].
  unfold np_log.
  match goal with
  | |- bind ?e _ _ = _ =>
      assert (HE : Tab t e (fun j => correction ln (x1 j) (x2 j) (f j)))
        by (unfold correction; solve_tab)
  end.
  rewrite HE, bind_ret_l.
  match goal with
  | |- ?e _ = _ =>
      assert (HF' : Tab t e (fun j => refine ln (x1 j) (x2 j) (f j)))
        by (unfold refine; cbv zeta; solve_tab)
  end.
  rewrite HF'. reflexivity.
Qed.

Lemma for_range_run n : forall F f tr,
  Leaf t (val F) f ->
  for_range n (quartic_iteration ln (tab t x1) X2) F tr =
  (if all_elements (fun j => domain_ok ln n (x1 j) (x2 j) (f j))
   then Returned match n with
                 | O => F
                 | S _ => tab t (fun j => F_after ln n (x1 j) (x2 j) (f j))
                 end
   else Raised DomainError,
   tr ++ repeat LogDomainCheck (checks_performed ln n (size t) x1 x2 f)).
Proof.
  induction n as [|n IH]; intros F f tr HF.
  - cbn [for_range domain_ok checks_performed repeat].
    rewrite forallb_true, app_nil_r; reflexivity.
  - cbn [for_range domain_ok checks_performed].
    unfold bind. rewrite (quartic_iteration_run tr HF).
    rewrite forallb_andb.
    destruct (forallb (fun j => log_arg_ok (x1 j) (f j)) _); cbn [andb].
    + rewrite (IH _ (fun j => refine ln (x1 j) (x2 j) (f j)))
        by (apply Tab_Leaf, Tab_val).
      cbn [repeat]. rewrite <- app_assoc. cbn [app].
      destruct n; reflexivity.
    + reflexivity.
Qed.

End Loop.

(** ** The solver on an accepted input *)

Lemma bind_emit {B} (ev : event) (k : unit -> M B) tr :
  bind (emit ev) k tr = k tt (tr ++ [ev]).
Proof. reflexivity. Qed.

Lemma accepted_inv R K iters :
  accepted R K iters = true ->
  np_any (fun x => x <=? 0) R = false
  /\ np_any (fun x => x <? 0) K = false
  /\ (iters <? 0)%Z = false.
Proof.
  unfold accepted. intros H.
  apply andb_prop in H as [H Hi]. apply andb_prop in H as [Hr Hk].
  rewrite negb_true_iff in Hr, Hk, Hi. auto.
Qed.

(** Squaring an array given by its elements. *)
Lemma power_2_tab pw t g :
  power_2 pw (tab t g) = tab t (fun j => squaring pw t (g j)).
Proof.
  destruct t as [|n t]; [reflexivity|].
  change (tab (n :: t) g) with (NdArray (n :: t) (map g (seq 0 (size (n :: t))))).
  unfold power_2, ufunc1, tab. cbn [shape_of elements squaring].
  now rewrite map_map.
Qed.

Lemma np_power_2_T pw t a g :
  Tab t a g -> Tab t (np_power_2 pw a) (fun j => squaring pw t (g j)).
Proof.
  intros ->. unfold Tab, np_power_2. rewrite bind_ret_l. now rewrite power_2_tab.
Qed.

Section Run.

Variables ln pw : float -> float.

Variables R K : value.
Variable iters : Z.
Variable t : list nat.

Hypothesis HR : well_formed R.
Hypothesis Hacc : accepted R K iters = true.
Hypothesis Ht : broadcast_shapes (shape_of K) (shape_of R) = Some t.

Lemma f_clamond_run tr :
  f_clamond ln pw R K iters tr =
  (solver_outcome ln pw R K t (Z.to_nat iters),
   tr ++ advisories R
      ++ repeat LogDomainCheck (solver_checks ln R K t (Z.to_nat iters))).
Proof.
  destruct (accepted_inv _ _ _ Hacc) as (Hr & Hk & Hi).
  destruct (broadcast_shapes_fits _ _ Ht) as [_ HRt].
  unfold f_clamond.
  change (np_any (fun x => x <=? 0) (np_asarray R))
    with (np_any (fun x => x <=? 0) R).
  change (np_any (fun x => x <? 0) (np_asarray K))
    with (np_any (fun x => x <? 0) K).
  change (np_any (fun x => x <? 2300) (np_asarray R))
    with (np_any (fun x => x <? 2300) R).
  rewrite Hr, Hk, Hi. cbn [when]. rewrite !bind_ret_l.
  assert (Hw : forall B (k : unit -> M B),
    bind (when (np_any (fun x => x <? 2300) R)
            (emit (Warning "RuntimeWarning"
               "Colebrook equation is for turbulent flow (R >= 2300).")))
         k tr = k tt (tr ++ advisories R)).
  { intros B k. unfold advisories.
    destruct (np_any (fun x => x <? 2300) R); cbn [when].
    - apply bind_emit.
    - rewrite bind_ret_l, app_nil_r. reflexivity. }
  rewrite Hw. clear Hw. rewrite app_assoc.
  generalize (tr ++ advisories R). clear tr. intros tr.
  assert (HX1 : Tab t (val (np_asarray K) * val (np_asarray R)
                       * val (NpFloat64 (_C1 ln)))%np (X1_at ln R K t)).
  { unfold X1_at, X1_of. eapply binop_TL; [|apply Leaf_NpFloat64].
    apply (binop_first PrimFloat.mul (np_asarray K) (np_asarray R)). exact Ht. }
  rewrite HX1, bind_ret_l.
  assert (HX2 : Tab (shape_of R)
                  (np_log ln (val (np_asarray R)) + val (NpFloat64 (_C2 ln)))%np
                  (fun i => X2_of ln (_C2 ln) (nth i (elements R) nan))).
  { unfold X2_of, np_log. eapply binop_TL; [|apply Leaf_NpFloat64].
    apply (unop_elements ln (v:=np_asarray R)). exact HR. }
  rewrite HX2, bind_ret_l.
  assert (HF0 : Tab (shape_of R)
                  (val (tab (shape_of R)
                          (fun i => X2_of ln (_C2 ln) (nth i (elements R) nan)))
                   - val (PyFloat 0.2))%np
                  (fun i => F_init ln (_C2 ln) (nth i (elements R) nan)))
    by (unfold F_init; solve_tab).
  rewrite HF0, bind_ret_l.
  unfold bind at 1.
  assert (LX2 : Leaf t (val (tab (shape_of R)
                   (fun i => X2_of ln (_C2 ln) (nth i (elements R) nan))))
                  (X2_at ln R t))
    by exact (Tab_broadcast t (Tab_val (shape_of R) _) HRt).
  assert (LF0 : Leaf t (val (tab (shape_of R)
                   (fun i => F_init ln (_C2 ln) (nth i (elements R) nan))))
                  (F_init_at ln R t))
    by exact (Tab_broadcast t (Tab_val (shape_of R) _) HRt).
  rewrite (for_range_run ln (X1_at ln R K t) LX2 _ tr LF0).
  unfold solver_checks, solver_outcome.
  destruct (Z.to_nat iters) as [|n].
  - cbn [domain_ok checks_performed repeat]. rewrite forallb_true.
    match goal with
    | |- bind ?e _ _ = _ =>
        assert (Hf : Tab (shape_of R) e
                  (fun i => friction (squaring pw (shape_of R)) _A
                              (F_init ln (_C2 ln) (nth i (elements R) nan))))
          by (unfold friction; apply np_power_2_T; solve_tab)
    end.
    rewrite Hf, bind_ret_l. cbn [np_isscalar np_asarray].
    rewrite andb_false_r. reflexivity.
  - change (forallb (fun j => domain_ok ln (S n) (X1_at ln R K t j)
                                (X2_at ln R t j) (F_init_at ln R t j))
              (seq 0 (size t)))
      with (forallb (fun j => scheme_defined ln (_C1 ln) (_C2 ln)
                                (view R t j) (view K t j) (S n)) (seq 0 (size t))).
    destruct (forallb _ _); [|reflexivity].
    match goal with
    | |- bind ?e _ _ = _ =>
        assert (Hf : Tab t e
                  (fun j => scheme_value ln (squaring pw t) (_C1 ln) (_C2 ln) _A
                              (view R t j) (view K t j) (S n)))
          by (unfold scheme_value, friction; apply np_power_2_T; solve_tab)
    end.
    rewrite Hf, bind_ret_l. cbn [np_isscalar np_asarray].
    rewrite andb_false_r. reflexivity.
Qed.

End Run.

(** ** IEEE facts: NaN, signs and comparisons *)

Lemma is_nan_eq x : is_nan x = true -> x = nan.
Proof.
  intros H. apply Prim2SF_inj. unfold Prim2SF at 1. now rewrite H.
Qed.

Lemma add_nan_l x : nan + x = nan.
Proof. apply Prim2SF_inj. rewrite add_spec. reflexivity. Qed.

Lemma add_nan_r x : x + nan = nan.
Proof.
  apply Prim2SF_inj. rewrite add_spec.
  change (Prim2SF nan) with S754_nan. now destruct (Prim2SF x).
Qed.

Lemma sub_nan_l x : nan - x = nan.
Proof. apply Prim2SF_inj. rewrite sub_spec. reflexivity. Qed.

Lemma sub_nan_r x : x - nan = nan.
Proof.
  apply Prim2SF_inj. rewrite sub_spec.
  change (Prim2SF nan) with S754_nan. now destruct (Prim2SF x).
Qed.

Lemma mul_nan_l x : nan * x = nan.
Proof. apply Prim2SF_inj. rewrite mul_spec. reflexivity. Qed.

Lemma mul_nan_r x : x * nan = nan.
Proof.
  apply Prim2SF_inj. rewrite mul_spec.
  change (Prim2SF nan) with S754_nan. now destruct (Prim2SF x).
Qed.

Lemma div_nan_l x : nan / x = nan.
Proof. apply Prim2SF_inj. rewrite div_spec. reflexivity. Qed.

Lemma div_nan_r x : x / nan = nan.
Proof.
  apply Prim2SF_inj. rewrite div_spec.
  change (Prim2SF nan) with S754_nan. now destruct (Prim2SF x).
Qed.

Create Rewrite HintDb ieee_nan.
#[local] Hint Rewrite add_nan_l add_nan_r sub_nan_l sub_nan_r
  mul_nan_l mul_nan_r div_nan_l div_nan_r : ieee_nan.

Lemma round_sign_positive m e l :
  SFltb (binary_round_aux prec emax false m e l) (S754_zero false) = false.
Proof.
  unfold binary_round_aux.
  destruct (shr_fexp prec emax m e l) as [r e'].
  destruct (shr_fexp prec emax _ e' loc_Exact) as [r' e''].
  destruct (shr_m r'); [reflexivity | | reflexivity].
  destruct (e'' <=? emax - prec)%Z; reflexivity.
Qed.

(** A square is never negative. *)
Lemma square_not_negative x : (square x <? 0) = false.
Proof.
  unfold square. rewrite ltb_spec, mul_spec.
  change (Prim2SF 0) with (S754_zero false).
  destruct (Prim2SF x) as [s|s| |s m e]; cbn [SF64mul SFmul];
    rewrite ?xorb_nilpotent; try reflexivity.
  apply round_sign_positive.
Qed.

Lemma positive_not_le_0 x : (0 <? x) = true -> (x <=? 0) = false.
Proof.
  rewrite ltb_spec, leb_spec. change (Prim2SF 0) with (S754_zero false).
  destruct (Prim2SF x) as [s|[|]| |[|] m e]; cbn; congruence.
Qed.

Lemma nonnegative_not_lt_0 x : (0 <=? x) = true -> (x <? 0) = false.
Proof.
  rewrite ltb_spec, leb_spec. change (Prim2SF 0) with (S754_zero false).
  destruct (Prim2SF x) as [s|[|]| |[|] m e]; cbn; congruence.
Qed.

(** ** The scheme on a NaN *)

Section SchemeNaN.

Variable ln : float -> float.

Lemma X1_of_nan_R c1 K : X1_of c1 K nan = nan.
Proof. unfold X1_of. now autorewrite with ieee_nan. Qed.

Lemma X1_of_nan_K c1 R : X1_of c1 nan R = nan.
Proof. unfold X1_of. now autorewrite with ieee_nan. Qed.

Lemma log_arg_ok_nan F : log_arg_ok nan F = true.
Proof. unfold log_arg_ok. now rewrite add_nan_l. Qed.

Lemma refine_nan X2 F : refine ln nan X2 F = nan.
Proof.
  unfold refine, correction. now autorewrite with ieee_nan.
Qed.

Lemma domain_ok_nan n : forall X2 F, domain_ok ln n nan X2 F = true.
Proof.
  induction n as [|n IH]; intros X2 F; cbn [domain_ok]; [reflexivity|].
  now rewrite log_arg_ok_nan, IH.
Qed.

Lemma F_after_nan n : forall X2 F, F_after ln (S n) nan X2 F = nan.
Proof.
  induction n as [|n IH]; intros X2 F.
  - apply refine_nan.
  - change (F_after ln (S (S n)) nan X2 F)
      with (F_after ln (S n) nan X2 (refine ln nan X2 F)).
    apply IH.
Qed.

Lemma friction_nan sq a : friction sq a nan = sq nan.
Proof. unfold friction. now autorewrite with ieee_nan. Qed.

Lemma square_nan : square nan = nan.
Proof. reflexivity. Qed.

Lemma squaring_nan pw t : pw nan = nan -> squaring pw t nan = nan.
Proof. intros H. destruct t; [exact H | reflexivity]. Qed.

(** With a NaN for [X1] the checks pass and every step yields NaN, which
    the final mapping squares. *)
Lemma scheme_nan_X1 sq c1 c2 a R K n :
  X1_of c1 K R = nan ->
  scheme_defined ln c1 c2 R K n = true
  /\ scheme_value ln sq c1 c2 a R K (S n) = sq nan.
Proof.
  intros H. unfold scheme_defined, scheme_value. rewrite H. split.
  - apply domain_ok_nan.
  - now rewrite F_after_nan, friction_nan.
Qed.

End SchemeNaN.

(** ** Computations that do not read the trace *)

Lemma regular_ret {A} P (a : A) : regular P (ret a).
Proof.
  split; [|discriminate]. intros tr. cbn. now rewrite app_nil_r.
Qed.

Lemma regular_raise {A} (P : exn -> Prop) e : P e -> regular P (@raise A e).
Proof.
  intros He. split.
  - intros tr. cbn. now rewrite app_nil_r.
  - cbn. intros e' [= <-]. exact He.
Qed.

Lemma regular_emit P ev : regular P (emit ev).
Proof. split; [reflexivity | discriminate]. Qed.

Lemma regular_bind {A B} P (m : M A) (k : A -> M B) :
  regular P m -> (forall a, regular P (k a)) -> regular P (bind m k).
Proof.
  intros [Hm Pm] Hk.
  assert (Hb : forall tr, bind m k tr =
            match result m with
            | Returned a => (result (k a), (tr ++ emitted m) ++ emitted (k a))
            | Raised e => (Raised e, tr ++ emitted m)
            end).
  { intros tr. unfold bind. rewrite Hm.
    destruct (result m) as [a|e]; [apply (Hk a) | reflexivity]. }
  split.
  - intros tr. unfold result, emitted. rewrite (Hb tr), (Hb []).
    destruct (result m) as [a|e]; cbn [fst snd app]; [|reflexivity].
    now rewrite app_assoc.
  - intros e. unfold result. rewrite (Hb []).
    destruct (result m) as [a|e'] eqn:E; cbn [fst].
    + apply (Hk a).
    + intros [= <-]. now apply Pm.
Qed.

Lemma regular_when P b body : regular P body -> regular P (when b body).
Proof. destruct b; [trivial | intros _; apply regular_ret]. Qed.

Lemma regular_val P v : regular P (val v).
Proof. apply regular_ret. Qed.

Lemma regular_ufunc2 (P : exn -> Prop) op x y :
  P broadcast_error -> regular P (ufunc2 op x y).
Proof.
  intros HP. unfold ufunc2.
  destruct (broadcast_shapes _ _); [apply regular_ret | now apply regular_raise].
Qed.

Lemma regular_binop (P : exn -> Prop) op a b :
  P broadcast_error -> regular P a -> regular P b -> regular P (binop op a b).
Proof.
  intros HP Ha Hb. unfold binop.
  apply regular_bind; [assumption|]. intros x.
  apply regular_bind; [assumption|]. intros y.
  now apply regular_ufunc2.
Qed.

Lemma regular_unop P f a : regular P a -> regular P (unop f a).
Proof.
  intros Ha. unfold unop. apply regular_bind; [assumption|].
  intros x. apply regular_ret.
Qed.

Lemma regular_for_range P body n :
  (forall F, regular P (body F)) -> forall F, regular P (for_range n body F).
Proof.
  intros Hb. induction n as [|n IH]; intros F; cbn [for_range].
  - apply regular_ret.
  - apply regular_bind; [apply Hb | exact IH].
Qed.

Ltac solve_regular :=
  repeat first
    [ apply regular_val | apply regular_ret | apply regular_emit
    | apply regular_raise; auto
    | apply regular_when
    | apply regular_binop; [auto | | ]
    | apply regular_unop
    | apply regular_bind; [ | intro ] ].

Section Effects.

Variables ln pw : float -> float.

Lemma regular_quartic_iteration X1 X2 F :
  regular numerical (quartic_iteration ln X1 X2 F).
Proof.
  unfold quartic_iteration, _check_log_domain, np_log, numerical, DomainError.
  solve_regular.
Qed.

(** The solver after the three validation tests. *)
Lemma regular_after_validation P R K iters :
  (forall e, numerical e -> P e) ->
  regular P
    (when (np_any (fun x => x <? 2300) R)
       (emit (Warning "RuntimeWarning"
                "Colebrook equation is for turbulent flow (R >= 2300).")) ;;
     X1 <- val K * val R * val (NpFloat64 (_C1 ln)) ;;
     X2 <- np_log ln (val R) + val (NpFloat64 (_C2 ln)) ;;
     F <- val X2 - val (PyFloat 0.2) ;;
     F <- for_range (Z.to_nat iters) (quartic_iteration ln X1 X2) F ;;
     f <- np_power_2 pw (val (PyFloat _A) / val F) ;;
     if (match shape_of f with [] => true | _ => false end)
          && np_isscalar R && np_isscalar K
     then ret (py_float f)
     else ret f)%np.
Proof.
  intros HP.
  assert (Hb : P broadcast_error) by (apply HP; left; reflexivity).
  unfold np_log, np_power_2.
  solve_regular.
  - apply regular_for_range. intros F'.
    match goal with
    | |- regular _ (quartic_iteration _ ?X1 ?X2 _) =>
        destruct (regular_quartic_iteration X1 X2 F') as [H1 H2]
    end.
    split; [exact H1 | intros e He; apply HP, H2, He].
  - match goal with |- regular _ (if ?c then _ else _) => destruct c end;
      apply regular_ret.
Qed.

Lemma f_clamond_rejected R K iters tr :
  accepted R K iters = false ->
  exists e, InvalidArgument e /\ f_clamond ln pw R K iters tr = (Raised e, tr).
Proof.
  unfold accepted, InvalidArgument, f_clamond. intros H.
  change (np_any (fun x => x <=? 0) (np_asarray R))
    with (np_any (fun x => x <=? 0) R).
  change (np_any (fun x => x <? 0) (np_asarray K))
    with (np_any (fun x => x <? 0) K).
  destruct (np_any (fun x => x <=? 0) R); [eauto|].
  destruct (np_any (fun x => x <? 0) K); [eauto 6|].
  destruct (iters <? 0)%Z; [eauto 6 | discriminate].
Qed.

Lemma f_clamond_accepted_raises R K iters tr e :
  accepted R K iters = true ->
  fst (f_clamond ln pw R K iters tr) = Raised e ->
  e = broadcast_error \/ e = DomainError.
Proof.
  intros Hacc. destruct (accepted_inv _ _ _ Hacc) as (Hr & Hk & Hi).
  unfold f_clamond.
  change (np_any (fun x => x <=? 0) (np_asarray R))
    with (np_any (fun x => x <=? 0) R).
  change (np_any (fun x => x <? 0) (np_asarray K))
    with (np_any (fun x => x <? 0) K).
  rewrite Hr, Hk, Hi. cbn [when]. rewrite !bind_ret_l.
  destruct (@regular_after_validation numerical (np_asarray R) (np_asarray K) iters)
    as [H1 H2]; [trivial|].
  rewrite H1. cbn [fst]. apply H2.
Qed.

End Effects.

(** ** Input validation *)

Lemma accepted_false_iff R K iters :
  accepted R K iters = false <->
  (exists x, In x (elements R) /\ (x <=? 0) = true)
  \/ (exists x, In x (elements K) /\ (x <? 0) = true)
  \/ (iters < 0)%Z.
Proof.
  unfold accepted, np_any.
  rewrite <- !existsb_exists, <- Z.ltb_lt.
  destruct (existsb _ (elements R)), (existsb _ (elements K)), (iters <? 0)%Z;
    cbn; intuition congruence.
Qed.

Lemma InvalidArgument_not_numerical e :
  InvalidArgument e -> e <> broadcast_error /\ e <> DomainError.
Proof.
  unfold InvalidArgument, broadcast_error, DomainError.
  intros [-> | [-> | ->]]; split; discriminate.
Qed.

(** C3: the solver raises an InvalidArgument error (one of the three
    [ValueError]s of the validation) exactly when some element of R is
    [<= 0], some element of K is [< 0] or [iters < 0]; it is then raised
    before anything else happens: the trace is left as it was, so no warning
    was emitted, no check made and no result produced. *)
Theorem invalid_argument_iff_out_of_domain
    (ln pw : float -> float) (R K : value) (iters : Z) (tr : trace) :
  let out_of_domain :=
    (exists x, In x (elements R) /\ (x <=? 0) = true)
    \/ (exists x, In x (elements K) /\ (x <? 0) = true)
    \/ (iters < 0)%Z in
  ((exists e, InvalidArgument e /\ fst (f_clamond ln pw R K iters tr) = Raised e)
   <-> out_of_domain)
  /\ (out_of_domain ->
      exists e, InvalidArgument e /\ f_clamond ln pw R K iters tr = (Raised e, tr)).
Proof.
  intros out_of_domain.
  assert (Hin : out_of_domain ->
    exists e, InvalidArgument e /\ f_clamond ln pw R K iters tr = (Raised e, tr)).
  { intros H. apply f_clamond_rejected. now apply accepted_false_iff. }
  split; [split|exact Hin].
  - intros (e & He & Hraised).
    apply accepted_false_iff.
    destruct (accepted R K iters) eqn:Hacc; [exfalso|reflexivity].
    destruct (InvalidArgument_not_numerical He) as [H1 H2].
    destruct (f_clamond_accepted_raises ln pw R K iters tr Hacc Hraised); contradiction.
  - intros H. destruct (Hin H) as (e & He & Hrun).
    exists e. split; [assumption|]. now rewrite Hrun.
Qed.

(** ** The loop, step by step *)

Lemma F_after_iter ln n : forall X1 X2 F,
  F_after ln n X1 X2 F = Nat.iter n (refine ln X1 X2) F.
Proof.
  induction n as [|n IH]; intros X1 X2 F; [reflexivity|].
  rewrite Nat.iter_succ_r. cbn [F_after]. apply IH.
Qed.

Lemma domain_ok_false_iff ln n : forall X1 X2 F,
  domain_ok ln n X1 X2 F = false <->
  exists i, (i < n)%nat /\ (X1 + F_after ln i X1 X2 F <=? 0) = true.
Proof.
  induction n as [|n IH]; intros X1 X2 F; cbn [domain_ok].
  - split; [discriminate | intros (i & Hi & _); lia].
  - rewrite andb_false_iff, IH. unfold log_arg_ok. rewrite negb_false_iff.
    split.
    + intros [H | (i & Hi & H)].
      * exists 0%nat. split; [lia | exact H].
      * exists (S i). split; [lia | exact H].
    + intros ([|i] & Hi & H).
      * left. exact H.
      * right. exists i. split; [lia | exact H].
Qed.

Lemma forallb_seq_false_iff (p : nat -> bool) N :
  forallb p (seq 0 N) = false <-> exists j, (j < N)%nat /\ p j = false.
Proof.
  split.
  - intros H. destruct (existsb (fun j => negb (p j)) (seq 0 N)) eqn:E.
    + apply existsb_exists in E as (j & Hj & Hp).
      apply in_seq in Hj. exists j. split; [lia | now apply negb_true_iff].
    + exfalso. rewrite existsb_negb_forallb in E. apply negb_false_iff in E.
      assert (Hp : forall l, forallb (fun j => negb (negb (p j))) l = forallb p l)
        by (induction l as [|x l IH]; cbn; [|rewrite IH, negb_involutive]; reflexivity).
      rewrite Hp in E. congruence.
  - intros (j & Hj & Hp).
    destruct (forallb p (seq 0 N)) eqn:E; [|reflexivity].
    rewrite forallb_forall in E. rewrite <- Hp. symmetry. apply E, in_seq. lia.
Qed.

Lemma checks_performed_le ln n N : forall x1 x2 f,
  (checks_performed ln n N x1 x2 f <= n)%nat.
Proof.
  induction n as [|n IH]; intros x1 x2 f; cbn [checks_performed]; [lia|].
  destruct (forallb _ _); [|lia].
  specialize (IH x1 x2 (fun j => refine ln (x1 j) (x2 j) (f j))). lia.
Qed.

Lemma checks_performed_all ln n N : forall x1 x2 f,
  forallb (fun j => domain_ok ln n (x1 j) (x2 j) (f j)) (seq 0 N) = true ->
  checks_performed ln n N x1 x2 f = n.
Proof.
  induction n as [|n IH]; intros x1 x2 f; cbn [checks_performed domain_ok];
    [reflexivity|].
  rewrite forallb_andb, andb_true_iff. intros [-> H].
  now rewrite IH.
Qed.

Lemma solver_checks_le ln R K t n : (solver_checks ln R K t n <= n)%nat.
Proof. apply checks_performed_le. Qed.

Lemma solver_outcome_returned ln pw R K t n :
  forallb (fun j => scheme_defined ln (_C1 ln) (_C2 ln) (view R t j) (view K t j) n)
    (seq 0 (size t)) = true ->
  solver_checks ln R K t n = n
  /\ solver_outcome ln pw R K t n =
     Returned
       match n with
       | O => tab (shape_of R)
                (fun i => friction (squaring pw (shape_of R)) _A
                            (F_init ln (_C2 ln) (nth i (elements R) nan)))
       | S _ => tab t (fun j =>
                  scheme_value ln (squaring pw t) (_C1 ln) (_C2 ln) _A
                    (view R t j) (view K t j) n)
       end.
Proof.
  intros H. split.
  - apply checks_performed_all. exact H.
  - unfold solver_outcome. destruct n; [reflexivity|]. now rewrite H.
Qed.

Lemma solver_outcome_returned_inv ln pw R K t n v :
  solver_outcome ln pw R K t n = Returned v ->
  forallb (fun j => scheme_defined ln (_C1 ln) (_C2 ln) (view R t j) (view K t j) n)
    (seq 0 (size t)) = true.
Proof.
  unfold solver_outcome. destruct n.
  - intros _. apply forallb_true.
  - destruct (forallb _ _); [reflexivity | discriminate].
Qed.

(** ** Termination and the fixed number of iterations *)

(** The checks of a loop that a check stops: the first [c] pass on every
    element, the next one fails on some element and is the last one made. *)
Lemma checks_performed_failed ln n N : forall x1 x2 f,
  forallb (fun j => domain_ok ln n (x1 j) (x2 j) (f j)) (seq 0 N) = false ->
  exists c, checks_performed ln n N x1 x2 f = S c
    /\ (c < n)%nat
    /\ (forall i j, (i < c)%nat -> (j < N)%nat ->
          log_arg_ok (x1 j) (F_after ln i (x1 j) (x2 j) (f j)) = true)
    /\ (exists j, (j < N)%nat
          /\ log_arg_ok (x1 j) (F_after ln c (x1 j) (x2 j) (f j)) = false).
Proof.
  induction n as [|n IH]; intros x1 x2 f; cbn [checks_performed domain_ok].
  - rewrite forallb_true. discriminate.
  - rewrite forallb_andb.
    destruct (forallb (fun j => log_arg_ok (x1 j) (f j)) (seq 0 N)) eqn:E0;
      cbn [andb].
    + intros H.
      destruct (IH x1 x2 (fun j => refine ln (x1 j) (x2 j) (f j)) H)
        as (c & -> & Hc & Hpass & Hfail).
      exists (S c). split; [reflexivity|]. split; [lia|]. split; [|exact Hfail].
      intros [|i] j Hi Hj.
      * rewrite forallb_forall in E0. apply E0, in_seq. lia.
      * apply Hpass; [lia | exact Hj].
    + intros _. exists 0%nat. split; [reflexivity|]. split; [lia|].
      split; [intros i j Hi; lia|].
      now apply forallb_seq_false_iff in E0.
Qed.

Lemma domain_ok_true_iff ln n : forall X1 X2 F,
  domain_ok ln n X1 X2 F = true <->
  forall i, (i < n)%nat -> log_arg_ok X1 (F_after ln i X1 X2 F) = true.
Proof.
  induction n as [|n IH]; intros X1 X2 F; cbn [domain_ok].
  - split; [intros _ i Hi; lia | reflexivity].
  - rewrite andb_true_iff, IH. split.
    + intros [H0 H] [|i] Hi; [exact H0 | apply H; lia].
    + intros H. split; [apply (H 0%nat); lia|].
      intros i Hi. apply (H (S i)). lia.
Qed.

(** The loop of an accepted call, pass by pass: the outcome and the checks
    made, from the passes of the check. *)
Lemma f_clamond_passes ln pw R K iters t tr :
  well_formed R ->
  accepted R K iters = true ->
  broadcast_shapes (shape_of K) (shape_of R) = Some t ->
  let n := Z.to_nat iters in
  let ok i j :=
    log_arg_ok (X1_at ln R K t j)
      (F_after ln i (X1_at ln R K t j) (X2_at ln R t j) (F_init_at ln R t j)) in
  ((forall i j, (i < n)%nat -> (j < size t)%nat -> ok i j = true) ->
   f_clamond ln pw R K iters tr =
   (solver_outcome ln pw R K t n, tr ++ advisories R ++ repeat LogDomainCheck n)
   /\ exists v, solver_outcome ln pw R K t n = Returned v)
  /\ (forall c, (c < n)%nat ->
        (forall i j, (i < c)%nat -> (j < size t)%nat -> ok i j = true) ->
        (exists j, (j < size t)%nat /\ ok c j = false) ->
        f_clamond ln pw R K iters tr =
        (Raised DomainError, tr ++ advisories R ++ repeat LogDomainCheck (S c)))
  /\ ((forall i j, (i < n)%nat -> (j < size t)%nat -> ok i j = true)
      \/ exists c, (c < n)%nat
           /\ (forall i j, (i < c)%nat -> (j < size t)%nat -> ok i j = true)
           /\ exists j, (j < size t)%nat /\ ok c j = false).
Proof.
  intros HR Hacc Ht n ok.
  assert (Hall : forallb
            (fun j => scheme_defined ln (_C1 ln) (_C2 ln) (view R t j) (view K t j) n)
            (seq 0 (size t)) = true <->
          forall i j, (i < n)%nat -> (j < size t)%nat -> ok i j = true).
  { rewrite forallb_forall. split.
    - intros H i j Hi Hj.
      assert (Hd : scheme_defined ln (_C1 ln) (_C2 ln) (view R t j) (view K t j) n = true)
        by (apply H, in_seq; lia).
      apply (proj1 (domain_ok_true_iff ln n _ _ _) Hd i Hi).
    - intros H j Hj. apply in_seq in Hj.
      apply domain_ok_true_iff. intros i Hi. apply H; [exact Hi | lia]. }
  assert (Hfail : forallb
            (fun j => scheme_defined ln (_C1 ln) (_C2 ln) (view R t j) (view K t j) n)
            (seq 0 (size t)) = false ->
          exists c, solver_checks ln R K t n = S c /\ (c < n)%nat
            /\ (forall i j, (i < c)%nat -> (j < size t)%nat -> ok i j = true)
            /\ exists j, (j < size t)%nat /\ ok c j = false).
  { intros H. apply (checks_performed_failed ln n (size t) _ _ _ H). }
  rewrite (@f_clamond_run ln pw R K iters t HR Hacc Ht). fold n.
  split; [|split].
  - intros H. apply Hall in H.
    destruct (solver_outcome_returned ln pw R K t n H) as [-> E].
    split; [reflexivity|]. rewrite E. eexists. reflexivity.
  - intros c Hc Hpass (j & Hj & Hbad).
    destruct (forallb
                (fun j => scheme_defined ln (_C1 ln) (_C2 ln)
                            (view R t j) (view K t j) n)
                (seq 0 (size t))) eqn:E.
    + exfalso. rewrite (proj1 Hall eq_refl c j Hc Hj) in Hbad. discriminate.
    + destruct (Hfail eq_refl) as (c' & Hc' & Hlt & Hpass' & j' & Hj' & Hbad').
      assert (c' = c).
      { destruct (Nat.lt_trichotomy c' c) as [Hlt'|[Heq|Hgt]]; [|exact Heq|].
        - rewrite (Hpass c' j' Hlt' Hj') in Hbad'. discriminate.
        - rewrite (Hpass' c j Hgt Hj) in Hbad. discriminate. }
      subst c'. rewrite Hc'. f_equal.
      unfold solver_outcome. destruct n; [lia|]. now rewrite E.
  - destruct (forallb
                (fun j => scheme_defined ln (_C1 ln) (_C2 ln)
                            (view R t j) (view K t j) n)
                (seq 0 (size t))) eqn:E.
    + left. now apply Hall.
    + right. destruct (Hfail eq_refl) as (c & _ & Hc & Hpass & Hbad).
      exists c. auto.
Qed.

(** C6, as stated, fails: a failed log-domain check leaves the loop before
    [iters] passes, on inputs that are valid. With the reference logarithm
    R = 2.7 and K = 0 pass the first check of two iterations and fail the
    second, whatever the scalar power is: the body of the loop ran once, the
    call raises and returns nothing. *)
Lemma failed_check_leaves_the_loop_early :
  ~ exists pw : float -> float,
      forall (R K : value) (iters : Z) (t : list nat) (tr : trace),
        well_formed R ->
        accepted R K iters = true ->
        broadcast_shapes (shape_of K) (shape_of R) = Some t ->
        exists v,
          f_clamond LnRef.ln_ref pw R K iters tr =
          (Returned v, tr ++ advisories R ++ repeat LogDomainCheck (Z.to_nat iters)).
Proof.
  intros [pw H].
  destruct (H (PyFloat 2.7) (PyFloat 0) 2%Z [] [] eq_refl eq_refl eq_refl)
    as [v Hv].
  destruct (@f_clamond_passes LnRef.ln_ref pw (PyFloat 2.7) (PyFloat 0) 2 [] []
              eq_refl eq_refl eq_refl) as (_ & Hstop & _).
  rewrite (Hstop 1%nat) in Hv.
  - discriminate Hv.
  - cbn. lia.
  - intros i j Hi Hj. assert (i = 0%nat) by lia. assert (j = 0%nat) by (cbn in Hj; lia).
    subst. vm_compute. reflexivity.
  - exists 0%nat. split; [cbn; lia|]. vm_compute. reflexivity.
Qed.

(** C6, as amended: on an accepted input the loop has no convergence test
    and no retry, and the call always ends, in one of two ways. If the
    log-domain check passes at the start of each of the [iters] passes, the
    body runs exactly [iters] times, the trace shows [iters] checks, and the
    call returns the friction factor of [F] after [iters] refinement steps;
    with [iters = 0] that is no pass, no check and the initial guess mapped
    to [(A / (ln R + C2 - 0.2)) ** 2]. If the check first fails at the start
    of pass [c + 1], the body has run [c] times, fewer than [iters], the
    trace shows [c + 1] checks and the call raises the DomainError. *)
Theorem loop_runs_iters_times_unless_a_check_fails
    (ln pw : float -> float) (R K : value) (iters : Z) (t : list nat) (tr : trace) :
  well_formed R ->
  accepted R K iters = true ->
  broadcast_shapes (shape_of K) (shape_of R) = Some t ->
  let n := Z.to_nat iters in
  let F_at i j :=
    Nat.iter i (refine ln (X1_at ln R K t j) (X2_at ln R t j)) (F_init_at ln R t j) in
  let passes i :=
    forall j, (j < size t)%nat -> (X1_at ln R K t j + F_at i j <=? 0) = false in
  ((forall i, (i < n)%nat -> passes i) ->
   f_clamond ln pw R K iters tr =
   (Returned
      match n with
      | O => tab (shape_of R)
               (fun i => squaring pw (shape_of R)
                           (_A / (ln (nth i (elements R) nan) + _C2 ln - 0.2)))
      | S _ => tab t (fun j => squaring pw t (_A / F_at n j))
      end,
    tr ++ advisories R ++ repeat LogDomainCheck n))
  /\ (forall c, (c < n)%nat ->
        (forall i, (i < c)%nat -> passes i) ->
        ~ passes c ->
        f_clamond ln pw R K iters tr =
        (Raised DomainError, tr ++ advisories R ++ repeat LogDomainCheck (S c)))
  /\ ((forall i, (i < n)%nat -> passes i)
      \/ exists c, (c < n)%nat /\ (forall i, (i < c)%nat -> passes i) /\ ~ passes c).
Proof.
  intros HR Hacc Ht n F_at passes.
  destruct (@f_clamond_passes ln pw R K iters t tr HR Hacc Ht)
    as (Hret & Hstop & Hcases).
  fold n in Hret, Hstop, Hcases.
  assert (Hok : forall i j,
            log_arg_ok (X1_at ln R K t j)
              (F_after ln i (X1_at ln R K t j) (X2_at ln R t j) (F_init_at ln R t j))
            = negb (X1_at ln R K t j + F_at i j <=? 0)).
  { intros i j. unfold log_arg_ok, F_at. now rewrite F_after_iter. }
  assert (Hp : forall c,
            (forall i, (i < c)%nat -> passes i) <->
            (forall i j, (i < c)%nat -> (j < size t)%nat ->
               log_arg_ok (X1_at ln R K t j)
                 (F_after ln i (X1_at ln R K t j) (X2_at ln R t j) (F_init_at ln R t j))
               = true)).
  { intros c. split.
    - intros H i j Hi Hj. rewrite Hok, (H i Hi j Hj). reflexivity.
    - intros H i Hi j Hj. specialize (H i j Hi Hj). rewrite Hok in H.
      now apply negb_true_iff in H. }
  assert (Hn : forall c,
            (exists j, (j < size t)%nat /\
               log_arg_ok (X1_at ln R K t j)
                 (F_after ln c (X1_at ln R K t j) (X2_at ln R t j) (F_init_at ln R t j))
               = false) -> ~ passes c).
  { intros c (j & Hj & H) Hpass. rewrite Hok, (Hpass j Hj) in H. discriminate. }
  split; [|split].
  - intros H. destruct (Hret (proj1 (Hp n) H)) as [-> [v Hv]]. f_equal.
    pose proof (solver_outcome_returned_inv _ _ _ _ _ _ Hv) as Hall.
    destruct (solver_outcome_returned ln pw R K t n Hall) as [_ ->].
    f_equal. destruct n as [|n']; [reflexivity|].
    apply tab_ext. intros j _. unfold scheme_value, friction, F_at.
    now rewrite F_after_iter.
  - intros c Hc Hpass Hbad. apply (Hstop c Hc (proj1 (Hp c) Hpass)).
    destruct (forallb
                (fun j => log_arg_ok (X1_at ln R K t j)
                   (F_after ln c (X1_at ln R K t j) (X2_at ln R t j)
                      (F_init_at ln R t j)))
                (seq 0 (size t))) eqn:E.
    + exfalso. apply Hbad. intros j Hj. rewrite forallb_forall in E.
      specialize (E j). rewrite Hok in E. apply negb_true_iff, E, in_seq. lia.
    + now apply forallb_seq_false_iff in E.
  - destruct Hcases as [H | (c & Hc & Hpass & Hbad)].
    + left. now apply Hp.
    + right. exists c. split; [exact Hc|]. split; [now apply Hp | now apply Hn].
Qed.

(** R = 2.7 with K = 0 and two iterations, with the reference logarithm:
    the first check passes and the second fails. *)
Lemma loop_runs_iters_times_unless_a_check_fails_witness :
  let ln := LnRef.ln_ref in
  let R := PyFloat 2.7 in
  let K := PyFloat 0 in
  let F_at i j :=
    Nat.iter i (refine ln (X1_at ln R K [] j) (X2_at ln R [] j)) (F_init_at ln R [] j) in
  let passes i :=
    forall j, (j < size [])%nat -> (X1_at ln R K [] j + F_at i j <=? 0) = false in
  ((forall i, (i < 2)%nat -> passes i) ->
   f_clamond ln pow2_ref R K 2 [] =
   (Returned (tab [] (fun j => squaring pow2_ref [] (_A / F_at 2%nat j))),
    [] ++ advisories R ++ repeat LogDomainCheck 2))
  /\ (forall c, (c < 2)%nat ->
        (forall i, (i < c)%nat -> passes i) ->
        ~ passes c ->
        f_clamond ln pow2_ref R K 2 [] =
        (Raised DomainError, [] ++ advisories R ++ repeat LogDomainCheck (S c)))
  /\ ((forall i, (i < 2)%nat -> passes i)
      \/ exists c, (c < 2)%nat /\ (forall i, (i < c)%nat -> passes i) /\ ~ passes c).
Proof.
  apply (@loop_runs_iters_times_unless_a_check_fails
           LnRef.ln_ref pow2_ref (PyFloat 2.7) (PyFloat 0) 2 [] []);
    reflexivity.
Defined.

(** ** The advisory warning *)

Lemma broadcast_shapes_nil_r s : broadcast_shapes s [] = Some s.
Proof.
  destruct (@broadcasts_to_shapes [] s (broadcasts_to_nil s)) as [_ H]. exact H.
Qed.

Lemma broadcast_shapes_nil_l s : broadcast_shapes [] s = Some s.
Proof.
  destruct (@broadcasts_to_shapes [] s (broadcasts_to_nil s)) as [H _]. exact H.
Qed.

Lemma binop_mismatch op op' x y c :
  broadcast_shapes (shape_of x) (shape_of y) = None ->
  binop op' (binop op (val x) (val y)) c = raise broadcast_error.
Proof.
  intros H. unfold binop at 2. unfold val. rewrite !bind_ret_l.
  unfold ufunc2. rewrite H. reflexivity.
Qed.

(** Accepted arrays whose shapes do not agree: NumPy raises on line 64,
    after the warning. *)
Lemma f_clamond_mismatch ln pw R K iters tr :
  accepted R K iters = true ->
  broadcast_shapes (shape_of K) (shape_of R) = None ->
  f_clamond ln pw R K iters tr = (Raised broadcast_error, tr ++ advisories R).
Proof.
  intros Hacc Ht. destruct (accepted_inv _ _ _ Hacc) as (Hr & Hk & Hi).
  unfold f_clamond.
  change (np_any (fun x => x <=? 0) (np_asarray R))
    with (np_any (fun x => x <=? 0) R).
  change (np_any (fun x => x <? 0) (np_asarray K))
    with (np_any (fun x => x <? 0) K).
  change (np_any (fun x => x <? 2300) (np_asarray R))
    with (np_any (fun x => x <? 2300) R).
  rewrite Hr, Hk, Hi. cbn [when]. rewrite !bind_ret_l.
  rewrite (binop_mismatch PrimFloat.mul PrimFloat.mul
             (np_asarray K) (np_asarray R) _ Ht).
  unfold advisories.
  destruct (np_any (fun x => x <? 2300) R); cbn [when].
  - reflexivity.
  - cbn. now rewrite app_nil_r.
Qed.

Lemma advisory_in_emitted ln pw R K iters :
  well_formed R ->
  accepted R K iters = true ->
  (In advisory (emitted (f_clamond ln pw R K iters))
   <-> exists x, In x (elements R) /\ (x <? 2300) = true).
Proof.
  intros HR Hacc. unfold emitted.
  assert (E : exists c, snd (f_clamond ln pw R K iters []) =
                        advisories R ++ repeat LogDomainCheck c).
  { destruct (broadcast_shapes (shape_of K) (shape_of R)) as [t|] eqn:Ht.
    - rewrite (@f_clamond_run ln pw R K iters t HR Hacc Ht). eexists. reflexivity.
    - rewrite (f_clamond_mismatch ln pw R K iters [] Hacc Ht).
      exists 0%nat. cbn. now rewrite app_nil_r. }
  destruct E as [c ->].
  rewrite in_app_iff, <- existsb_exists. unfold advisories, np_any.
  destruct (existsb _ (elements R)); cbn [In].
  - intuition.
  - split; [|discriminate]. intros [[]|H]. apply repeat_spec in H. discriminate.
Qed.

(** C5: on an input that passes the validation the call emits the advisory
    exactly when some element of R is strictly below 2300, so not for
    R = 2300 and always for R = 2299. The warning decides nothing: the
    outcome of the call is that of the numerical part, in which the test on
    2300 does not occur. *)
Theorem advisory_iff_below_2300
    (ln pw : float -> float) (R K : value) (iters : Z) (tr : trace) :
  well_formed R ->
  accepted R K iters = true ->
  (In advisory (emitted (f_clamond ln pw R K iters))
   <-> exists x, In x (elements R) /\ (x <? 2300) = true)
  /\ (forall t, broadcast_shapes (shape_of K) (shape_of R) = Some t ->
        fst (f_clamond ln pw R K iters tr) = solver_outcome ln pw R K t (Z.to_nat iters))
  /\ (forall K' iters', accepted (PyFloat 2300) K' iters' = true ->
        ~ In advisory (emitted (f_clamond ln pw (PyFloat 2300) K' iters')))
  /\ (forall K' iters', accepted (PyFloat 2299) K' iters' = true ->
        In advisory (emitted (f_clamond ln pw (PyFloat 2299) K' iters'))).
Proof.
  intros HR Hacc. split; [now apply advisory_in_emitted|].
  split; [intros t Ht; now rewrite (@f_clamond_run ln pw R K iters t HR Hacc Ht)|].
  split; intros K' iters' Hacc'.
  - rewrite (@advisory_in_emitted ln pw (PyFloat 2300) K' iters' eq_refl Hacc').
    intros (x & [<-|[]] & Hx). discriminate Hx.
  - rewrite (@advisory_in_emitted ln pw (PyFloat 2299) K' iters' eq_refl Hacc').
    exists 2299. split; [left|]; reflexivity.
Qed.

(** R = 2299 and R = 3000 in one array, a smooth pipe, two iterations. *)
Lemma advisory_iff_below_2300_witness :
  let ln := LnRef.ln_ref in
  let pw := pow2_ref in
  let R := NdArray [2%nat] [2299; 3000] in
  let K := PyFloat 0 in
  (In advisory (emitted (f_clamond ln pw R K 2))
   <-> exists x, In x (elements R) /\ (x <? 2300) = true)
  /\ (forall t, broadcast_shapes (shape_of K) (shape_of R) = Some t ->
        fst (f_clamond ln pw R K 2 []) = solver_outcome ln pw R K t (Z.to_nat 2))
  /\ (forall K' iters', accepted (PyFloat 2300) K' iters' = true ->
        ~ In advisory (emitted (f_clamond ln pw (PyFloat 2300) K' iters')))
  /\ (forall K' iters', accepted (PyFloat 2299) K' iters' = true ->
        In advisory (emitted (f_clamond ln pw (PyFloat 2299) K' iters'))).
Proof.
  apply (@advisory_iff_below_2300
           LnRef.ln_ref pow2_ref (NdArray [2%nat] [2299; 3000]) (PyFloat 0) 2 []);
    reflexivity.
Defined.

(** ** The log-domain check *)

Lemma solver_outcome_domain_error ln pw R K t n :
  solver_outcome ln pw R K t n = Raised DomainError <->
  exists i j, (i < n)%nat /\ (j < size t)%nat /\
    (X1_at ln R K t j
     + F_after ln i (X1_at ln R K t j) (X2_at ln R t j) (F_init_at ln R t j)
     <=? 0) = true.
Proof.
  unfold solver_outcome. destruct n as [|n].
  - split; [discriminate | intros (i & _ & Hi & _); lia].
  - destruct (forallb _ _) eqn:E.
    + split; [discriminate|]. intros (i & j & Hi & Hj & H). exfalso.
      rewrite forallb_forall in E.
      assert (Hd : scheme_defined ln (_C1 ln) (_C2 ln) (view R t j) (view K t j) (S n) = true)
        by (apply E, in_seq; lia).
      assert (Hf : scheme_defined ln (_C1 ln) (_C2 ln) (view R t j) (view K t j) (S n) = false)
        by (apply domain_ok_false_iff; exists i; split; [assumption | exact H]).
      congruence.
    + split; [intros _ | reflexivity].
      apply forallb_seq_false_iff in E as (j & Hj & E).
      apply domain_ok_false_iff in E as (i & Hi & E).
      exists i, j. auto.
Qed.

Lemma solver_outcome_raised ln pw R K t n e :
  solver_outcome ln pw R K t n = Raised e -> e = DomainError.
Proof.
  unfold solver_outcome. destruct n; [discriminate|].
  destruct (forallb _ _); [discriminate | now intros [= <-]].
Qed.

(** C4, as amended: on an accepted input the call raises the DomainError
    exactly when, at the start of some refinement step, some element has
    [X1 + F <= 0]; a NaN there is not [<= 0] and passes. The check is made
    at the start of a step and nowhere else: the trace shows at most
    [iters] checks, and exactly [iters] when the call returns. No other
    error comes out of the numerical part. *)
Theorem domain_error_iff_log_argument_not_positive
    (ln pw : float -> float) (R K : value) (iters : Z) (t : list nat) (tr : trace) :
  well_formed R ->
  accepted R K iters = true ->
  broadcast_shapes (shape_of K) (shape_of R) = Some t ->
  let n := Z.to_nat iters in
  (fst (f_clamond ln pw R K iters tr) = Raised DomainError
   <-> exists i j, (i < n)%nat /\ (j < size t)%nat /\
         (X1_at ln R K t j
          + F_after ln i (X1_at ln R K t j) (X2_at ln R t j) (F_init_at ln R t j)
          <=? 0) = true)
  /\ (forall e, fst (f_clamond ln pw R K iters tr) = Raised e -> e = DomainError)
  /\ snd (f_clamond ln pw R K iters tr) =
     tr ++ advisories R ++ repeat LogDomainCheck (solver_checks ln R K t n)
  /\ (solver_checks ln R K t n <= n)%nat
  /\ (forall v, fst (f_clamond ln pw R K iters tr) = Returned v ->
      solver_checks ln R K t n = n).
Proof.
  intros HR Hacc Ht n.
  rewrite (@f_clamond_run ln pw R K iters t HR Hacc Ht). cbn [fst snd]. fold n.
  split; [apply solver_outcome_domain_error|].
  split; [intros e; apply solver_outcome_raised|].
  split; [reflexivity|].
  split; [apply solver_checks_le|].
  intros v Hv. apply (@solver_outcome_returned ln pw R K t n).
  apply (@solver_outcome_returned_inv ln pw R K t n v Hv).
Qed.

(** A tiny Reynolds number: the first check fails. *)
Lemma domain_error_iff_log_argument_not_positive_witness :
  let ln := LnRef.ln_ref in
  let pw := pow2_ref in
  let R := PyFloat 1e-300 in
  let K := PyFloat 0 in
  (fst (f_clamond ln pw R K 2 []) = Raised DomainError
   <-> exists i j, (i < 2)%nat /\ (j < size [])%nat /\
         (X1_at ln R K [] j
          + F_after ln i (X1_at ln R K [] j) (X2_at ln R [] j) (F_init_at ln R [] j)
          <=? 0) = true)
  /\ (forall e, fst (f_clamond ln pw R K 2 []) = Raised e -> e = DomainError)
  /\ snd (f_clamond ln pw R K 2 []) =
     [] ++ advisories R ++ repeat LogDomainCheck (solver_checks ln R K [] 2)
  /\ (solver_checks ln R K [] 2 <= 2)%nat
  /\ (forall v, fst (f_clamond ln pw R K 2 []) = Returned v ->
      solver_checks ln R K [] 2 = 2%nat).
Proof.
  apply (@domain_error_iff_log_argument_not_positive
           LnRef.ln_ref pow2_ref (PyFloat 1e-300) (PyFloat 0) 2 [] []);
    reflexivity.
Defined.

(** *** R = +inf, K = 0: a NaN in the log argument *)

Lemma X1_at_infinite_R ln :
  X1_at ln (PyFloat infinity) (PyFloat 0) [] 0 = nan.
Proof.
  change (X1_at ln (PyFloat infinity) (PyFloat 0) [] 0)
    with (0 * infinity * _C1 ln).
  change (0 * infinity) with nan. apply mul_nan_l.
Qed.

Lemma f_clamond_infinite_R ln pw tr :
  f_clamond ln pw (PyFloat infinity) (PyFloat 0) 1 tr =
  (Returned (NpFloat64 (pw nan)), tr ++ [LogDomainCheck]).
Proof.
  rewrite (@f_clamond_run ln pw (PyFloat infinity) (PyFloat 0) 1 []
             eq_refl eq_refl eq_refl).
  change (Z.to_nat 1) with 1%nat.
  destruct (@scheme_nan_X1 ln pw (_C1 ln) (_C2 ln) _A infinity 0 1
              (X1_at_infinite_R ln)) as [Hd _].
  destruct (@scheme_nan_X1 ln pw (_C1 ln) (_C2 ln) _A infinity 0 0
              (X1_at_infinite_R ln)) as [_ Hv].
  assert (Hall : forallb
            (fun j => scheme_defined ln (_C1 ln) (_C2 ln)
                        (view (PyFloat infinity) [] j) (view (PyFloat 0) [] j) 1)
            (seq 0 (size [])) = true).
  { change (seq 0 (size [])) with [0%nat]. cbn [forallb].
    rewrite andb_true_r. exact Hd. }
  destruct (solver_outcome_returned ln pw (PyFloat infinity) (PyFloat 0) [] 1 Hall)
    as [-> ->].
  change (tab [] _)
    with (NpFloat64 (scheme_value ln pw (_C1 ln) (_C2 ln) _A infinity 0 1)).
  rewrite Hv. reflexivity.
Qed.

(** C4, as stated, fails: with R = +inf and K = 0 the log argument of the
    first step is NaN, so it is not strictly positive, and yet no
    DomainError is raised, whatever the logarithm and the scalar power
    are: the call returns the square of NaN. *)
Lemma nan_log_argument_is_not_rejected :
  ~ exists ln pw : float -> float,
      forall (R K : value) (iters : Z) (t : list nat) (tr : trace),
        well_formed R ->
        accepted R K iters = true ->
        broadcast_shapes (shape_of K) (shape_of R) = Some t ->
        (fst (f_clamond ln pw R K iters tr) = Raised DomainError
         <-> exists i j, (i < Z.to_nat iters)%nat /\ (j < size t)%nat /\
               (0 <? X1_at ln R K t j
                     + F_after ln i (X1_at ln R K t j) (X2_at ln R t j)
                         (F_init_at ln R t j)) = false).
Proof.
  intros (ln & pw & H).
  destruct (H (PyFloat infinity) (PyFloat 0) 1%Z [] [] eq_refl eq_refl eq_refl)
    as [_ Hraise].
  rewrite f_clamond_infinite_R in Hraise.
  enough (E : @Returned value (NpFloat64 (pw nan)) = Raised DomainError)
    by discriminate E.
  apply Hraise. exists 0%nat, 0%nat.
  split; [cbn; lia|]. split; [cbn; lia|].
  rewrite X1_at_infinite_R, add_nan_l. reflexivity.
Qed.

(** ** Valid or NaN *)

(** Every element is valid or NaN: the validation lets the input through. *)
Lemma accepted_valid_or_nan R K iters :
  (forall x, In x (elements R) -> is_nan x = true \/ (0 <? x) = true) ->
  (forall x, In x (elements K) -> is_nan x = true \/ (0 <=? x) = true) ->
  (0 <= iters)%Z ->
  accepted R K iters = true.
Proof.
  intros HR HK Hi. unfold accepted, np_any.
  rewrite !andb_true_iff, !negb_true_iff. repeat split.
  - destruct (existsb _ (elements R)) eqn:E; [|reflexivity].
    apply existsb_exists in E as (x & Hx & E).
    destruct (HR x Hx) as [H|H].
    + apply is_nan_eq in H. subst x. discriminate.
    + apply positive_not_le_0 in H. congruence.
  - destruct (existsb _ (elements K)) eqn:E; [|reflexivity].
    apply existsb_exists in E as (x & Hx & E).
    destruct (HK x Hx) as [H|H].
    + apply is_nan_eq in H. subst x. discriminate.
    + apply nonnegative_not_lt_0 in H. congruence.
  - apply Z.ltb_ge. exact Hi.
Qed.

(** ** IEEE facts: magnitudes

    What rounding does to a result that is neither too large nor too small:
    it stays finite. Mantissas are followed by their number of binary
    digits through [binary_round_aux]. *)

Section Magnitudes.

Local Open Scope Z_scope.














End Magnitudes.







(** ** The sign of the friction factor *)


(** Finite inputs do it too. With the reference logarithm, R = 200000 and
    K = 3.6999999999999957 bring [F] to zero in one step, and the friction
    factor of the element is [+inf]. *)
Example zero_F_gives_infinite_f (pw : float -> float) :
  f_clamond LnRef.ln_ref pw (NdArray [1%nat] [200000]) (PyFloat 3.6999999999999957)
    1 []
  = (Returned (NdArray [1%nat] [infinity]), [LogDomainCheck]).
Proof. vm_compute. reflexivity. Qed.



(** ** NaN in the inputs *)

Lemma X1_of_nan c1 K R :
  is_nan R || is_nan K = true -> X1_of c1 K R = nan.
Proof.
  intros H. apply orb_true_iff in H as [H|H]; apply is_nan_eq in H; subst.
  - apply X1_of_nan_R.
  - apply X1_of_nan_K.
Qed.

Lemma F_init_nan ln c2 : ln nan = nan -> F_init ln c2 nan = nan.
Proof.
  intros H. unfold F_init, X2_of. rewrite H.
  now rewrite add_nan_l, sub_nan_l.
Qed.

Lemma forallb_ext_in {A} (p q : A -> bool) l :
  (forall x, In x l -> p x = q x) -> forallb p l = forallb q l.
Proof.
  induction l as [|x l IH]; intros H; cbn; [reflexivity|].
  rewrite (H x) by now left. rewrite IH; [reflexivity|].
  intros y Hy. apply H. now right.
Qed.

(** C10, as stated, fails: with [iters = 0] the roughness is not used, so
    a NaN in K does not reach the output. With the reference logarithm,
    R = 7e5 and K = NaN return 0.0085110143324254282. *)
Lemma nan_roughness_lost_without_iterations :
  ~ (forall ln pw : float -> float,
       ln nan = nan ->
       pw nan = nan ->
       forall (R K : value) (iters : Z) (t : list nat) (tr : trace),
         well_formed R ->
         (forall x, In x (elements R) -> is_nan x = true \/ (0 <? x) = true) ->
         (forall x, In x (elements K) -> is_nan x = true \/ (0 <=? x) = true) ->
         (0 <= iters)%Z ->
         broadcast_shapes (shape_of K) (shape_of R) = Some t ->
         (forall e, InvalidArgument e -> fst (f_clamond ln pw R K iters tr) <> Raised e)
         /\ exists v,
              fst (f_clamond ln pw R K iters tr) = Returned v
              /\ forall j, (j < size t)%nat ->
                   is_nan (view R t j) || is_nan (view K t j) = true ->
                   is_nan (nth j (elements v) nan) = true).
Proof.
  intros H.
  destruct (H LnRef.ln_ref pow2_ref eq_refl eq_refl
              (PyFloat 7e5) (PyFloat nan) 0%Z [] [])
    as (_ & v & Hv & Hnan).
  - reflexivity.
  - intros x [<-|[]]. now right.
  - intros x [<-|[]]. now left.
  - lia.
  - reflexivity.
  - assert (E : fst (f_clamond LnRef.ln_ref pow2_ref (PyFloat 7e5) (PyFloat nan) 0 []) =
                Returned (NpFloat64 0.0085110143324254282))
      by (vm_compute; reflexivity).
    rewrite E in Hv. clear E. injection Hv as <-.
    specialize (Hnan 0%nat (Nat.lt_0_1) eq_refl). discriminate Hnan.
Qed.

(** C10, as amended: NaN elements pass the validation, so no
    InvalidArgument is raised, and they pass every log-domain check. With
    [iters >= 1] the call returns unless the check fails on another element,
    and the output is NaN wherever R or K is NaN. With [iters = 0] the
    output is the initial guess of each element of R: NaN where R is NaN,
    as the logarithm of NaN is NaN, and independent of K. The NaN that
    reaches the final mapping stays one: the product of NaN by itself is
    NaN, and so is the C library's power of NaN. *)
Theorem nan_elements_pass_and_propagate
    (ln pw : float -> float) (R K : value) (iters : Z) (t : list nat) (tr : trace) :
  well_formed R ->
  (forall x, In x (elements R) -> is_nan x = true \/ (0 <? x) = true) ->
  (forall x, In x (elements K) -> is_nan x = true \/ (0 <=? x) = true) ->
  (0 <= iters)%Z ->
  broadcast_shapes (shape_of K) (shape_of R) = Some t ->
  let n := Z.to_nat iters in
  let has_nan j := is_nan (view R t j) || is_nan (view K t j) in
  (forall e, InvalidArgument e -> fst (f_clamond ln pw R K iters tr) <> Raised e)
  /\ ((1 <= n)%nat -> pw nan = nan ->
      fst (f_clamond ln pw R K iters tr) =
      if forallb
           (fun j => has_nan j
                     || scheme_defined ln (_C1 ln) (_C2 ln) (view R t j) (view K t j) n)
           (seq 0 (size t))
      then Returned
             (tab t (fun j =>
                if has_nan j then nan
                else scheme_value ln (squaring pw t) (_C1 ln) (_C2 ln) _A
                       (view R t j) (view K t j) n))
      else Raised DomainError)
  /\ (n = 0%nat -> ln nan = nan -> pw nan = nan ->
      fst (f_clamond ln pw R K iters tr) =
      Returned
        (tab (shape_of R) (fun i =>
           if is_nan (nth i (elements R) nan) then nan
           else friction (squaring pw (shape_of R)) _A
                  (F_init ln (_C2 ln) (nth i (elements R) nan))))).
Proof.
  intros HR HRv HKv Hi Ht n has_nan.
  assert (Hacc : accepted R K iters = true)
    by now apply accepted_valid_or_nan.
  split; [|split].
  - intros e He Hraised.
    destruct (InvalidArgument_not_numerical He) as [H1 H2].
    destruct (f_clamond_accepted_raises ln pw R K iters tr Hacc Hraised); contradiction.
  - intros Hn Hpw. rewrite (@f_clamond_run ln pw R K iters t HR Hacc Ht). cbn [fst].
    fold n. destruct n as [|n']; [lia|]. unfold solver_outcome.
    rewrite (forallb_ext_in
               (fun j => has_nan j
                  || scheme_defined ln (_C1 ln) (_C2 ln) (view R t j) (view K t j) (S n'))
               (fun j => scheme_defined ln (_C1 ln) (_C2 ln)
                           (view R t j) (view K t j) (S n'))).
    + destruct (forallb _ _); [|reflexivity]. f_equal. apply tab_ext.
      intros j _. destruct (has_nan j) eqn:E; [|reflexivity].
      destruct (@scheme_nan_X1 ln (squaring pw t) (_C1 ln) (_C2 ln) _A
                  (view R t j) (view K t j) n' (X1_of_nan _ _ _ E)) as [_ ->].
      now apply squaring_nan.
    + intros j _. destruct (has_nan j) eqn:E; [|reflexivity].
      now destruct (@scheme_nan_X1 ln (squaring pw t) (_C1 ln) (_C2 ln) _A
                      (view R t j) (view K t j) (S n') (X1_of_nan _ _ _ E)) as [-> _].
  - intros Hn Hln Hpw.
    rewrite (@f_clamond_run ln pw R K iters t HR Hacc Ht). cbn [fst].
    fold n. rewrite Hn. unfold solver_outcome. f_equal. apply tab_ext.
    intros i _. destruct (is_nan (nth i (elements R) nan)) eqn:E; [|reflexivity].
    apply is_nan_eq in E. rewrite E, F_init_nan by assumption.
    rewrite friction_nan. now apply squaring_nan.
Qed.

(** R = [NaN, 7e5] with K = 0.01 and two iterations. *)
Lemma nan_elements_pass_and_propagate_witness :
  let ln := LnRef.ln_ref in
  let pw := pow2_ref in
  let R := NdArray [2%nat] [nan; 7e5] in
  let K := PyFloat 0.01 in
  let t := [2%nat] in
  let has_nan j := is_nan (view R t j) || is_nan (view K t j) in
  (forall e, InvalidArgument e -> fst (f_clamond ln pw R K 2 []) <> Raised e)
  /\ ((1 <= Z.to_nat 2)%nat -> pw nan = nan ->
      fst (f_clamond ln pw R K 2 []) =
      if forallb
           (fun j => has_nan j
                     || scheme_defined ln (_C1 ln) (_C2 ln) (view R t j) (view K t j)
                          (Z.to_nat 2))
           (seq 0 (size t))
      then Returned
             (tab t (fun j =>
                if has_nan j then nan
                else scheme_value ln (squaring pw t) (_C1 ln) (_C2 ln) _A
                       (view R t j) (view K t j) (Z.to_nat 2)))
      else Raised DomainError)
  /\ (Z.to_nat 2 = 0%nat -> ln nan = nan -> pw nan = nan ->
      fst (f_clamond ln pw R K 2 []) =
      Returned
        (tab (shape_of R) (fun i =>
           if is_nan (nth i (elements R) nan) then nan
           else friction (squaring pw (shape_of R)) _A
                  (F_init ln (_C2 ln) (nth i (elements R) nan))))).
Proof.
  apply (@nan_elements_pass_and_propagate
           LnRef.ln_ref pow2_ref (NdArray [2%nat] [nan; 7e5]) (PyFloat 0.01) 2 [2%nat] []).
  - reflexivity.
  - intros x [<-|[<-|[]]]; [left | right]; reflexivity.
  - intros x [<-|[]]. right. reflexivity.
  - lia.
  - reflexivity.
Defined.

(** ** The scheme computed by the solver *)

(** The two ways of writing C2 and A give one float each, where the
    logarithm is correctly rounded at the arguments at which they are
    computed. *)
Lemma constants_agree ln :
  log_exact_at_constants ln -> _C2 ln = spec_C2 ln /\ _A = spec_A ln.
Proof.
  intros (H10 & Hq & Hl & Hs). unfold _C2, _LOG10, spec_C2, spec_A.
  rewrite H10, Hq, Hl, Hs. split; vm_compute; reflexivity.
Qed.

Lemma ln_ref_exact_at_constants : log_exact_at_constants LnRef.ln_ref.
Proof. split; [|split; [|split]]; vm_compute; reflexivity. Qed.

(** C1: on an accepted input the solver computes Clamond's scheme on every
    element: the returned array holds the value of the scheme on the
    corresponding elements of R and K (without iteration, of the elements
    of R alone), and the only other outcome is the DomainError of a failed
    log-domain check. This holds for every logarithm with the constants as
    the module has them: C1 is [ln 10 / 18.574], C2 is computed as
    [ln (1 / 5.02) + ln (ln 10)] and A is written as a literal. The final
    mapping squares [A / F] as NumPy squares a value of that shape: by a
    product in an array, by the scalar power in a float64 scalar. Where
    the logarithm rounds correctly at the four arguments involved, C2 and A
    are the floats [ln (ln 10 / 5.02)] and [0.5 * ln 10] of the
    specification, and the solver computes [clamond_scheme]. *)
Theorem solver_computes_clamond_scheme
    (ln pw : float -> float) (R K : value) (iters : Z) (t : list nat) (tr : trace)
    (k0 : float) :
  well_formed R ->
  accepted R K iters = true ->
  broadcast_shapes (shape_of K) (shape_of R) = Some t ->
  let C1 := ln 10 / 18.574 in
  let C2 := ln (1.0 / 5.02) + ln (ln 10) in
  let A := 1.151292546497022842 in
  fst (f_clamond ln pw R K iters tr) =
  match Z.to_nat iters with
  | O =>
      Returned
        (tab (shape_of R)
           (fun i => scheme_value ln (squaring pw (shape_of R)) C1 C2 A
                       (nth i (elements R) nan) k0 0))
  | S _ as n =>
      if forallb (fun j => scheme_defined ln C1 C2 (view R t j) (view K t j) n)
           (seq 0 (size t))
      then Returned
             (tab t (fun j => scheme_value ln (squaring pw t) C1 C2 A
                                (view R t j) (view K t j) n))
      else Raised DomainError
  end
  /\ (log_exact_at_constants ln ->
      C1 = spec_C1 ln /\ C2 = spec_C2 ln /\ A = spec_A ln
      /\ fst (f_clamond ln pw R K iters tr) =
         match Z.to_nat iters with
         | O =>
             Returned
               (tab (shape_of R)
                  (fun i => clamond_scheme ln (squaring pw (shape_of R))
                              (nth i (elements R) nan) k0 0))
         | S _ as n =>
             if forallb (fun j => clamond_defined ln (view R t j) (view K t j) n)
                  (seq 0 (size t))
             then Returned
                    (tab t (fun j => clamond_scheme ln (squaring pw t)
                                       (view R t j) (view K t j) n))
             else Raised DomainError
         end).
Proof.
  intros HR Hacc Ht C1 C2 A.
  assert (Hrun : fst (f_clamond ln pw R K iters tr) =
                 solver_outcome ln pw R K t (Z.to_nat iters))
    by now rewrite (@f_clamond_run ln pw R K iters t HR Hacc Ht).
  split.
  - rewrite Hrun. unfold solver_outcome.
    destruct (Z.to_nat iters); reflexivity.
  - intros Hln. destruct (constants_agree Hln) as [HC2 HA].
    split; [reflexivity|]. split; [exact HC2|]. split; [exact HA|].
    rewrite Hrun. unfold solver_outcome, clamond_scheme, clamond_defined.
    change (_C1 ln) with (spec_C1 ln). rewrite HC2, HA.
    destruct (Z.to_nat iters); reflexivity.
Qed.

(** The array of the example script: R = [3e3, 7e5, 1e7], K = 0.01, with the
    reference logarithm, which rounds correctly. *)
Lemma solver_computes_clamond_scheme_witness :
  let ln := LnRef.ln_ref in
  let pw := pow2_ref in
  let R := NdArray [3%nat] [3e3; 7e5; 1e7] in
  let K := PyFloat 0.01 in
  let t := [3%nat] in
  fst (f_clamond ln pw R K 2 []) =
  Returned (tab t (fun j => clamond_scheme ln (squaring pw t)
                              (view R t j) (view K t j) 2))
  /\ fst (f_clamond ln pw R K 2 []) =
     Returned
       (NdArray [3%nat]
          [0.051868360850602514; 0.037990824071722655; 0.037909825751806597]).
Proof.
  destruct (@solver_computes_clamond_scheme
              LnRef.ln_ref pow2_ref (NdArray [3%nat] [3e3; 7e5; 1e7]) (PyFloat 0.01) 2
              [3%nat] [] 0) as [_ H].
  - reflexivity.
  - reflexivity.
  - reflexivity.
  - destruct H as (_ & _ & _ & H).
    + split; [|split; [|split]]; vm_compute; reflexivity.
    + split; [|vm_compute; reflexivity].
      rewrite H. vm_compute. reflexivity.
Defined.

(** ** Array calls and scalar calls *)

Lemma existsb_false_nth (p : float -> bool) d j :
  existsb p d = false -> (j < length d)%nat -> p (nth j d nan) = false.
Proof.
  intros H Hj. destruct (p (nth j d nan)) eqn:E; [|reflexivity].
  rewrite <- H. symmetry. apply existsb_exists.
  exists (nth j d nan). split; [now apply nth_In | exact E].
Qed.

(** C9, as stated, fails: the scalar call squares with the C library's
    power and the array call with a product, and the two differ where the
    power is not correctly rounded. With the reference logarithm and a
    power that answers as glibc's does, R = 101433 with K = 0.01 and two
    iterations gives 0.03849522617095192 as the element of the array and
    0.03849522617095191 from the scalar call. *)
Lemma scalar_call_differs_from_array_element :
  let ln := LnRef.ln_ref in
  let pw := pow2_off_once in
  fst (f_clamond ln pw (NdArray [1%nat] [101433]) (PyFloat 0.01) 2 [])
  = Returned (NdArray [1%nat] [0.03849522617095192])
  /\ fst (f_clamond ln pw (PyFloat 101433) (PyFloat 0.01) 2 [])
     = Returned (NpFloat64 0.03849522617095191)
  /\ (0.03849522617095192 =? 0.03849522617095191) = false.
Proof.
  split; [|split]; vm_compute; reflexivity.
Qed.

(** C9, as amended: a call on an array R with a scalar K returns an array
    of the shape of R, and each of its elements and the scalar call on the
    corresponding element of R square the same float [A / F]: the loop
    gives both the same [F], bit for bit. The array squares it by a
    product, the scalar call by the scalar power, so the scalar call
    returns the element of the array wherever the power of [A / F] is the
    rounded product. *)
Theorem array_and_scalar_calls_square_the_same_float
    (ln pw : float -> float) (s : list nat) (d : list float) (k : float)
    (iters : Z) (tr : trace) (v : value) :
  length d = size s ->
  fst (f_clamond ln pw (NdArray s d) (PyFloat k) iters tr) = Returned v ->
  shape_of v = s
  /\ forall j, (j < length d)%nat ->
       let r := nth j d nan in
       let x := _A / F_after ln (Z.to_nat iters) (X1_of (_C1 ln) k r)
                       (X2_of ln (_C2 ln) r) (F_init ln (_C2 ln) r) in
       nth j (elements v) nan = squaring pw s x
       /\ fst (f_clamond ln pw (PyFloat r) (PyFloat k) iters tr) =
          Returned (NpFloat64 (pw x))
       /\ (pw x = x * x ->
           fst (f_clamond ln pw (PyFloat r) (PyFloat k) iters tr) =
           Returned (NpFloat64 (x * x))
           /\ (s <> [] -> nth j (elements v) nan = x * x)).
Proof.
  intros Hlen Hv.
  destruct (accepted (NdArray s d) (PyFloat k) iters) eqn:Hacc.
  2: { destruct (f_clamond_rejected ln pw (NdArray s d) (PyFloat k) iters tr Hacc)
         as (e & _ & E).
       rewrite E in Hv. discriminate Hv. }
  pose proof (broadcast_shapes_nil_l s) as Ht.
  rewrite (@f_clamond_run ln pw (NdArray s d) (PyFloat k) iters s Hlen Hacc Ht) in Hv.
  cbn [fst] in Hv.
  pose proof (solver_outcome_returned_inv _ _ _ _ _ _ Hv) as Hok.
  destruct (solver_outcome_returned ln pw (NdArray s d) (PyFloat k) s _ Hok) as [_ E].
  rewrite E in Hv. injection Hv as <-. clear E.
  destruct (accepted_inv _ _ _ Hacc) as (Hr & Hk & Hi).
  split; [destruct (Z.to_nat iters); apply shape_of_tab|].
  intros j Hj r x.
  assert (Hacc' : accepted (PyFloat r) (PyFloat k) iters = true).
  { unfold accepted. rewrite Hk, Hi. unfold np_any. cbn [elements existsb].
    unfold r. now rewrite (existsb_false_nth _ d Hr Hj). }
  assert (HvR : view (NdArray s d) s j = r).
  { unfold view. cbn [shape_of elements]. rewrite src_index_same; [reflexivity|].
    now rewrite <- Hlen. }
  match goal with
  | |- nth j (elements ?V) nan = _ /\ _ =>
      assert (Hel : nth j (elements V) nan = squaring pw s x)
  end.
  { unfold x. destruct (Z.to_nat iters) as [|n].
    - rewrite elements_tab, nth_map_seq by (cbn [shape_of]; now rewrite <- Hlen).
      reflexivity.
    - rewrite elements_tab, nth_map_seq by now rewrite <- Hlen.
      rewrite HvR. reflexivity. }
  assert (Hsc : fst (f_clamond ln pw (PyFloat r) (PyFloat k) iters tr) =
                Returned (NpFloat64 (pw x))).
  { rewrite (@f_clamond_run ln pw (PyFloat r) (PyFloat k) iters []
               eq_refl Hacc' eq_refl).
    cbn [fst]. unfold solver_outcome, x.
    destruct (Z.to_nat iters) as [|n]; [reflexivity|].
    rewrite forallb_forall in Hok.
    specialize (Hok j). rewrite HvR in Hok.
    change (seq 0 (size [])) with [0%nat]. cbn [forallb].
    change (view (PyFloat r) [] 0) with r.
    change (view (PyFloat k) [] 0) with k.
    change (view (PyFloat k) s j) with k in Hok.
    rewrite Hok by (apply in_seq; lia). reflexivity. }
  split; [exact Hel|]. split; [exact Hsc|].
  intros Hpw. split; [now rewrite Hsc, Hpw|].
  intros Hs. rewrite Hel. destruct s; [contradiction | reflexivity].
Qed.

(** The array of the example script against its three scalar calls. *)
Lemma array_and_scalar_calls_square_the_same_float_witness :
  let ln := LnRef.ln_ref in
  let pw := pow2_ref in
  let d := [3e3; 7e5; 1e7] in
  let v := NdArray [3%nat]
             [0.051868360850602514; 0.037990824071722655; 0.037909825751806597] in
  shape_of v = [3%nat]
  /\ forall j, (j < length d)%nat ->
       let r := nth j d nan in
       let x := _A / F_after ln (Z.to_nat 2) (X1_of (_C1 ln) 0.01 r)
                       (X2_of ln (_C2 ln) r) (F_init ln (_C2 ln) r) in
       nth j (elements v) nan = squaring pw [3%nat] x
       /\ fst (f_clamond ln pw (PyFloat r) (PyFloat 0.01) 2 []) =
          Returned (NpFloat64 (pw x))
       /\ (pw x = x * x ->
           fst (f_clamond ln pw (PyFloat r) (PyFloat 0.01) 2 []) =
           Returned (NpFloat64 (x * x))
           /\ ([3%nat] <> [] -> nth j (elements v) nan = x * x)).
Proof.
  apply (@array_and_scalar_calls_square_the_same_float
           LnRef.ln_ref pow2_ref [3%nat] [3e3; 7e5; 1e7] 0.01 2 []).
  - reflexivity.
  - vm_compute. reflexivity.
Defined.

(** ** The shape of the result *)

(** C2 (the code departs from it): with [iters = 0] nothing brings the
    shape of K into the result. For the scalar R = 7e5 and the array
    K = [0.01, 0.02], whose broadcast shape is (2,), the call returns one
    float64 scalar, whatever the logarithm and the scalar power are. *)
Theorem shape_of_K_lost_without_iterations (ln pw : float -> float) (tr : trace) :
  broadcast_shapes (shape_of (NdArray [2%nat] [0.01; 0.02])) (shape_of (PyFloat 7e5))
  = Some [2%nat]
  /\ f_clamond ln pw (PyFloat 7e5) (NdArray [2%nat] [0.01; 0.02]) 0 tr =
     (Returned (NpFloat64 (pw (_A / (ln 7e5 + _C2 ln - 0.2)))), tr).
Proof.
  split; [reflexivity|].
  rewrite (@f_clamond_run ln pw (PyFloat 7e5) (NdArray [2%nat] [0.01; 0.02]) 0 [2%nat]
             eq_refl eq_refl eq_refl).
  change (Z.to_nat 0) with 0%nat. unfold solver_checks, solver_outcome, advisories.
  change (np_any (fun x => x <? 2300) (PyFloat 7e5)) with false.
  cbn [checks_performed repeat app]. rewrite app_nil_r. reflexivity.
Qed.

(** X1: with [iters >= 1] a returned value has the shape to which R and K
    broadcast: a float64 scalar when that shape has no dimension, an array
    of that shape otherwise. *)
Theorem result_has_broadcast_shape_with_iterations
    (ln pw : float -> float) (R K : value) (iters : Z) (t : list nat) (tr : trace)
    (v : value) :
  well_formed R ->
  accepted R K iters = true ->
  broadcast_shapes (shape_of K) (shape_of R) = Some t ->
  (1 <= iters)%Z ->
  fst (f_clamond ln pw R K iters tr) = Returned v ->
  shape_of v = t
  /\ well_formed v
  /\ v = match t with
         | [] => NpFloat64 (hd nan (elements v))
         | _ => NdArray t (elements v)
         end.
Proof.
  intros HR Hacc Ht Hi Hv.
  rewrite (@f_clamond_run ln pw R K iters t HR Hacc Ht) in Hv. cbn [fst] in Hv.
  pose proof (solver_outcome_returned_inv _ _ _ _ _ _ Hv) as Hok.
  destruct (solver_outcome_returned ln pw R K t _ Hok) as [_ E].
  rewrite E in Hv. injection Hv as <-. clear E.
  destruct (Z.to_nat iters) as [|n] eqn:En; [lia|].
  split; [apply shape_of_tab|].
  split.
  - unfold well_formed. now rewrite shape_of_tab, elements_tab, length_map, length_seq.
  - rewrite elements_tab. destruct t; reflexivity.
Qed.

Lemma result_has_broadcast_shape_with_iterations_witness :
  let v := NdArray [2%nat; 3%nat]
             [0.051868360850602514; 0.037990824071722655; 0.037909825751806597;
              0.059287422395487101; 0.048693472570641279; 0.04864141524272924] in
  shape_of v = [2%nat; 3%nat]
  /\ well_formed v
  /\ v = NdArray [2%nat; 3%nat] (elements v).
Proof.
  apply (@result_has_broadcast_shape_with_iterations
           LnRef.ln_ref pow2_ref (NdArray [3%nat] [3e3; 7e5; 1e7])
           (NdArray [2%nat; 1%nat] [0.01; 0.02]) 2 [2%nat; 3%nat] []).
  - reflexivity.
  - reflexivity.
  - reflexivity.
  - lia.
  - vm_compute. reflexivity.
Defined.

(** X2: the test [np.isscalar(R)] of line 89 is made on the array to which
    R was rebound on line 49, so the branch [return float(f)] is never taken:
    no call returns a Python float, and a call on two scalars returns the
    float64 scalar of the arithmetic. *)
Theorem scalar_call_returns_float64_scalar
    (ln pw : float -> float) (R K : value) (iters : Z) (tr : trace) (v : value) :
  well_formed R ->
  fst (f_clamond ln pw R K iters tr) = Returned v ->
  (forall x, v <> PyFloat x)
  /\ (shape_of R = [] -> shape_of K = [] -> exists x, v = NpFloat64 x).
Proof.
  intros HR Hv.
  destruct (accepted R K iters) eqn:Hacc.
  2: { destruct (f_clamond_rejected ln pw R K iters tr Hacc) as (e & _ & E).
       rewrite E in Hv. discriminate Hv. }
  destruct (broadcast_shapes (shape_of K) (shape_of R)) as [t|] eqn:Ht.
  2: { rewrite (f_clamond_mismatch ln pw R K iters tr Hacc Ht) in Hv.
       discriminate Hv. }
  rewrite (@f_clamond_run ln pw R K iters t HR Hacc Ht) in Hv. cbn [fst] in Hv.
  pose proof (solver_outcome_returned_inv _ _ _ _ _ _ Hv) as Hok.
  destruct (solver_outcome_returned ln pw R K t _ Hok) as [_ E].
  rewrite E in Hv. injection Hv as <-. clear E.
  split.
  - intros x. destruct (Z.to_nat iters); unfold tab;
      [destruct (shape_of R) | destruct t]; discriminate.
  - intros HsR HsK. rewrite HsR, HsK in Ht. injection Ht as <-.
    rewrite HsR. destruct (Z.to_nat iters); eexists; reflexivity.
Qed.

Lemma scalar_call_returns_float64_scalar_witness :
  (forall x, NpFloat64 0.037990824071722655 <> PyFloat x)
  /\ (shape_of (PyFloat 7e5) = [] -> shape_of (PyFloat 0.01) = [] ->
      exists x, NpFloat64 0.037990824071722655 = NpFloat64 x).
Proof.
  apply (@scalar_call_returns_float64_scalar
           LnRef.ln_ref pow2_ref (PyFloat 7e5) (PyFloat 0.01) 2 []).
  - reflexivity.
  - vm_compute. reflexivity.
Defined.

(** ** More on the solver: errors and edge cases *)

(** X3: the validation reports the first test that fails, in the order R,
    K, iters: a non-positive element of R gives the error on R whatever K
    and iters are, and a negative element of K gives the error on K
    whatever iters is. Nothing is emitted before the error. *)
Theorem validation_reports_first_failing_test
    (ln pw : float -> float) (R K : value) (iters : Z) (tr : trace) :
  (np_any (fun x => x <=? 0) R = true ->
   f_clamond ln pw R K iters tr =
   (Raised (ValueError "Reynolds number R must be positive."), tr))
  /\ (np_any (fun x => x <=? 0) R = false ->
      np_any (fun x => x <? 0) K = true ->
      f_clamond ln pw R K iters tr =
      (Raised (ValueError "Relative roughness K must be non-negative."), tr))
  /\ (np_any (fun x => x <=? 0) R = false ->
      np_any (fun x => x <? 0) K = false ->
      (iters < 0)%Z ->
      f_clamond ln pw R K iters tr = (Raised (ValueError "iters must be >= 0."), tr)).
Proof.
  unfold f_clamond.
  change (np_any (fun x => x <=? 0) (np_asarray R))
    with (np_any (fun x => x <=? 0) R).
  change (np_any (fun x => x <? 0) (np_asarray K))
    with (np_any (fun x => x <? 0) K).
  repeat split.
  - intros ->. reflexivity.
  - intros -> ->. reflexivity.
  - intros -> -> Hi. apply Z.ltb_lt in Hi. rewrite Hi. reflexivity.
Qed.

(** X4: on an accepted input the call raises NumPy's broadcasting error
    exactly when the shapes of K and R do not broadcast, whatever [iters]
    is, also with [iters = 0]; it is raised by the first product, after the
    advisory and before any log-domain check. *)
Theorem shapes_that_do_not_broadcast_raise
    (ln pw : float -> float) (R K : value) (iters : Z) (tr : trace) :
  well_formed R ->
  accepted R K iters = true ->
  (fst (f_clamond ln pw R K iters tr) = Raised broadcast_error
   <-> broadcast_shapes (shape_of K) (shape_of R) = None)
  /\ (broadcast_shapes (shape_of K) (shape_of R) = None ->
      snd (f_clamond ln pw R K iters tr) = tr ++ advisories R).
Proof.
  intros HR Hacc. split; [split|].
  - destruct (broadcast_shapes (shape_of K) (shape_of R)) as [t|] eqn:Ht;
      [|reflexivity].
    rewrite (@f_clamond_run ln pw R K iters t HR Hacc Ht). cbn [fst]. intros H.
    apply solver_outcome_raised in H. discriminate H.
  - intros Ht. now rewrite (f_clamond_mismatch ln pw R K iters tr Hacc Ht).
  - intros Ht. now rewrite (f_clamond_mismatch ln pw R K iters tr Hacc Ht).
Qed.

Lemma shapes_that_do_not_broadcast_raise_witness :
  let ln := LnRef.ln_ref in
  let pw := pow2_ref in
  let R := NdArray [3%nat] [3e3; 7e5; 1e7] in
  let K := NdArray [2%nat] [0.01; 0.02] in
  (fst (f_clamond ln pw R K 0 []) = Raised broadcast_error
   <-> broadcast_shapes (shape_of K) (shape_of R) = None)
  /\ (broadcast_shapes (shape_of K) (shape_of R) = None ->
      snd (f_clamond ln pw R K 0 []) = [] ++ advisories R).
Proof.
  apply (@shapes_that_do_not_broadcast_raise
           LnRef.ln_ref pow2_ref (NdArray [3%nat] [3e3; 7e5; 1e7])
           (NdArray [2%nat] [0.01; 0.02]) 0 []);
    reflexivity.
Defined.

Lemma fits_rev_size_zero s : forall t,
  fits_rev s t -> size s = 0%nat -> size t = 0%nat.
Proof.
  induction s as [|n s IH]; intros [|m t]; cbn [fits_rev];
    try (cbn; intros; (lia || contradiction)).
  rewrite !size_cons. intros [Hn Hs] H0.
  apply Nat.eq_mul_0 in H0 as [H0|H0].
  - destruct Hn as [<-| ->]; [|discriminate]. now rewrite H0.
  - rewrite (IH t Hs H0). lia.
Qed.

(** X5: an array R with no element: every accepted call returns an array
    with no element, of the broadcast shape (of the shape of R when
    [iters = 0]); no advisory is emitted and no log-domain check fails,
    whatever the logarithm is. *)
Theorem empty_input_gives_empty_result
    (ln pw : float -> float) (R K : value) (iters : Z) (t : list nat) (tr : trace) :
  well_formed R ->
  elements R = [] ->
  accepted R K iters = true ->
  broadcast_shapes (shape_of K) (shape_of R) = Some t ->
  f_clamond ln pw R K iters tr =
  (Returned (NdArray (if (iters =? 0)%Z then shape_of R else t) []),
   tr ++ repeat LogDomainCheck (Z.to_nat iters)).
Proof.
  intros HR He Hacc Ht.
  destruct (accepted_inv _ _ _ Hacc) as (_ & _ & Hi). apply Z.ltb_ge in Hi.
  assert (HsR : size (shape_of R) = 0%nat)
    by (unfold well_formed in HR; now rewrite He in HR).
  assert (Hst : size t = 0%nat).
  { destruct (broadcast_shapes_fits _ _ Ht) as [_ HRt].
    unfold broadcasts_to in HRt. rewrite <- size_rev.
    apply (fits_rev_size_zero _ _ HRt). now rewrite size_rev. }
  assert (Hok : forallb
            (fun j => scheme_defined ln (_C1 ln) (_C2 ln)
                        (view R t j) (view K t j) (Z.to_nat iters))
            (seq 0 (size t)) = true) by now rewrite Hst.
  rewrite (@f_clamond_run ln pw R K iters t HR Hacc Ht).
  destruct (solver_outcome_returned ln pw R K t _ Hok) as [-> ->].
  unfold advisories, np_any. rewrite He. cbn [existsb app].
  f_equal. f_equal.
  destruct (Z.to_nat iters) as [|n] eqn:En.
  - assert (iters = 0)%Z by lia. subst iters. cbn [Z.eqb].
    unfold tab. rewrite HsR. destruct (shape_of R); [discriminate HsR | reflexivity].
  - assert (iters <> 0)%Z by lia.
    destruct (Z.eqb_spec iters 0); [contradiction|].
    unfold tab. rewrite Hst. destruct t; [discriminate Hst | reflexivity].
Qed.

Lemma empty_input_gives_empty_result_witness :
  f_clamond LnRef.ln_ref pow2_ref (NdArray [0%nat; 3%nat] []) (NdArray [3%nat] [0.01; 0; 0.02])
    2 [] =
  (Returned (NdArray (if (2 =? 0)%Z
                      then shape_of (NdArray [0%nat; 3%nat] [])
                      else [0%nat; 3%nat]) []),
   [] ++ repeat LogDomainCheck (Z.to_nat 2)).
Proof.
  apply (@empty_input_gives_empty_result
           LnRef.ln_ref pow2_ref (NdArray [0%nat; 3%nat] []) (NdArray [3%nat] [0.01; 0; 0.02])
           2 [0%nat; 3%nat] []);
    reflexivity.
Defined.

(** X6: with [iters = 0] the roughness is not used: two calls on the same
    R with roughness arrays that are both accepted and both broadcast with R
    give the same result and emit the same events, and neither checks the
    log domain. *)
Theorem roughness_is_ignored_without_iterations
    (ln pw : float -> float) (R K K' : value) (t t' : list nat) (tr : trace) :
  well_formed R ->
  accepted R K 0 = true ->
  accepted R K' 0 = true ->
  broadcast_shapes (shape_of K) (shape_of R) = Some t ->
  broadcast_shapes (shape_of K') (shape_of R) = Some t' ->
  f_clamond ln pw R K 0 tr = f_clamond ln pw R K' 0 tr
  /\ snd (f_clamond ln pw R K 0 tr) = tr ++ advisories R.
Proof.
  intros HR Hacc Hacc' Ht Ht'.
  rewrite (@f_clamond_run ln pw R K 0 t HR Hacc Ht).
  rewrite (@f_clamond_run ln pw R K' 0 t' HR Hacc' Ht').
  change (Z.to_nat 0) with 0%nat. unfold solver_checks. cbn [checks_performed repeat snd].
  now rewrite !app_nil_r.
Qed.

Lemma roughness_is_ignored_without_iterations_witness :
  let ln := LnRef.ln_ref in
  let pw := pow2_ref in
  let R := NdArray [3%nat] [3e3; 7e5; 1e7] in
  f_clamond ln pw R (PyFloat 0.01) 0 [] = f_clamond ln pw R (NdArray [3%nat] [0; 0.05; nan]) 0 []
  /\ snd (f_clamond ln pw R (PyFloat 0.01) 0 []) = [] ++ advisories R.
Proof.
  apply (@roughness_is_ignored_without_iterations
           LnRef.ln_ref pow2_ref (NdArray [3%nat] [3e3; 7e5; 1e7]) (PyFloat 0.01)
           (NdArray [3%nat] [0; 0.05; nan]) [3%nat] [3%nat] []);
    reflexivity.
Defined.

Lemma domain_ok_le ln m : forall n X1 X2 F,
  (m <= n)%nat -> domain_ok ln n X1 X2 F = true -> domain_ok ln m X1 X2 F = true.
Proof.
  induction m as [|m IH]; intros n X1 X2 F Hmn H; [reflexivity|].
  destruct n as [|n]; [lia|]. cbn [domain_ok] in *.
  apply andb_prop in H as [-> H]. cbn [andb].
  apply (IH n); [lia | exact H].
Qed.

(** X7: reducing [iters], as the message of the log-domain error advises,
    never brings that error in: if a call returns, the call on the same R
    and K with fewer iterations returns too, after as many checks as it has
    iterations. *)
Theorem fewer_iterations_still_return
    (ln pw : float -> float) (R K : value) (iters iters' : Z) (t : list nat)
    (tr : trace) (v : value) :
  well_formed R ->
  broadcast_shapes (shape_of K) (shape_of R) = Some t ->
  (0 <= iters' <= iters)%Z ->
  fst (f_clamond ln pw R K iters tr) = Returned v ->
  exists v',
    f_clamond ln pw R K iters' tr =
    (Returned v', tr ++ advisories R ++ repeat LogDomainCheck (Z.to_nat iters')).
Proof.
  intros HR Ht Hi Hv.
  destruct (accepted R K iters) eqn:Hacc.
  2: { destruct (f_clamond_rejected ln pw R K iters tr Hacc) as (e & _ & E).
       rewrite E in Hv. discriminate Hv. }
  assert (Hacc' : accepted R K iters' = true).
  { destruct (accepted_inv _ _ _ Hacc) as (Hr & Hk & _).
    unfold accepted. rewrite Hr, Hk. cbn.
    apply negb_true_iff, Z.ltb_ge. lia. }
  rewrite (@f_clamond_run ln pw R K iters t HR Hacc Ht) in Hv. cbn [fst] in Hv.
  pose proof (solver_outcome_returned_inv _ _ _ _ _ _ Hv) as Hok.
  assert (Hok' : forallb
            (fun j => scheme_defined ln (_C1 ln) (_C2 ln)
                        (view R t j) (view K t j) (Z.to_nat iters'))
            (seq 0 (size t)) = true).
  { rewrite forallb_forall in Hok |- *. intros j Hj.
    unfold scheme_defined.
    apply (@domain_ok_le ln (Z.to_nat iters') (Z.to_nat iters)); [lia|].
    now apply Hok. }
  rewrite (@f_clamond_run ln pw R K iters' t HR Hacc' Ht).
  destruct (solver_outcome_returned ln pw R K t _ Hok') as [-> ->].
  eexists. reflexivity.
Qed.

Lemma fewer_iterations_still_return_witness :
  exists v',
    f_clamond LnRef.ln_ref pow2_ref (PyFloat 7e5) (PyFloat 0.01) 1 [] =
    (Returned v', [] ++ advisories (PyFloat 7e5) ++ repeat LogDomainCheck (Z.to_nat 1)).
Proof.
  apply (@fewer_iterations_still_return
           LnRef.ln_ref pow2_ref (PyFloat 7e5) (PyFloat 0.01) 2 1 [] []
           (NpFloat64 0.037990824071722655)).
  - reflexivity.
  - reflexivity.
  - lia.
  - vm_compute. reflexivity.
Defined.

(** X8: the solver raises nothing but the three errors of its validation,
    NumPy's broadcasting error and the log-domain error. *)
Theorem f_clamond_raises_only_its_errors
    (ln pw : float -> float) (R K : value) (iters : Z) (tr : trace) (e : exn) :
  fst (f_clamond ln pw R K iters tr) = Raised e ->
  InvalidArgument e \/ e = broadcast_error \/ e = DomainError.
Proof.
  intros H. destruct (accepted R K iters) eqn:Hacc.
  - right. exact (f_clamond_accepted_raises ln pw R K iters tr Hacc H).
  - destruct (f_clamond_rejected ln pw R K iters tr Hacc) as (e' & He' & E).
    rewrite E in H. injection H as <-. now left.
Qed.

Lemma f_clamond_raises_only_its_errors_witness :
  InvalidArgument (ValueError "Relative roughness K must be non-negative.")
  \/ ValueError "Relative roughness K must be non-negative." = broadcast_error
  \/ ValueError "Relative roughness K must be non-negative." = DomainError.
Proof.
  apply (@f_clamond_raises_only_its_errors
           LnRef.ln_ref pow2_ref (PyFloat 7e5) (PyFloat (-0.001)) 2 []).
  reflexivity.
Defined.

(** ** The example script: signs *)

Lemma round_sign s m e l :
  binary_round_aux prec emax s m e l = S754_nan
  \/ sf_sign (binary_round_aux prec emax s m e l) = s.
Proof.
  unfold binary_round_aux.
  destruct (shr_fexp prec emax m e l) as [r e'].
  destruct (shr_fexp prec emax _ e' loc_Exact) as [r' e''].
  destruct (shr_m r'); [now right | | now left].
  destruct (e'' <=? emax - prec)%Z; now right.
Qed.


Lemma SFmul_sign x y :
  SFmul prec emax x y = S754_nan
  \/ sf_sign (SFmul prec emax x y) = xorb (sf_sign x) (sf_sign y).
Proof.
  destruct x as [sx|sx| |sx mx ex], y as [sy|sy| |sy my ey]; cbn [SFmul sf_sign];
    auto using round_sign.
Qed.

Lemma SFdiv_sign x y :
  SFdiv prec emax x y = S754_nan
  \/ sf_sign (SFdiv prec emax x y) = xorb (sf_sign x) (sf_sign y).
Proof.
  destruct x as [sx|sx| |sx mx ex], y as [sy|sy| |sy my ey]; cbn [SFdiv sf_sign];
    auto.
  destruct (SFdiv_core_binary prec emax (Z.pos mx) ex (Z.pos my) ey) as [[mz ez] lz].
  apply round_sign.
Qed.

(** Not negative: NaN, a zero of either sign, or the sign bit clear. *)
Lemma not_negative_iff x :
  (x <? 0) = false <->
  Prim2SF x = S754_nan \/ (exists s, Prim2SF x = S754_zero s)
  \/ sf_sign (Prim2SF x) = false.
Proof.
  rewrite ltb_spec. change (Prim2SF 0) with (S754_zero false).
  destruct (Prim2SF x) as [s|[|]| |[|] m e]; cbn; split; intros H; eauto;
    destruct H as [H|[[s' H]|H]]; congruence.
Qed.

Lemma positive_iff x :
  (0 <? x) = true ->
  Prim2SF x <> S754_nan /\ sf_sign (Prim2SF x) = false.
Proof.
  rewrite ltb_spec. change (Prim2SF 0) with (S754_zero false).
  destruct (Prim2SF x) as [s|[|]| |[|] m e]; cbn; intros H; split; congruence.
Qed.

Lemma mul_not_negative a b :
  (a <? 0) = false -> (b <? 0) = false -> (a * b <? 0) = false.
Proof.
  rewrite !not_negative_iff, mul_spec. unfold SF64mul.
  intros [Ha|[[sa Ha]|Ha]] [Hb|[[sb Hb]|Hb]];
    try (rewrite Ha); try (rewrite Hb).
  all: try (left; reflexivity).
  all: try (left; now destruct (Prim2SF a)).
  all: try (destruct (Prim2SF b) as [s|s| |s m e]; cbn; eauto; fail).
  all: try (destruct (Prim2SF a) as [s|s| |s m e]; cbn; eauto; fail).
  destruct (SFmul_sign (Prim2SF a) (Prim2SF b)) as [H|H]; [now left|].
  right. right. now rewrite H, Ha, Hb.
Qed.

(** [(a * V) * V] has the sign of [a], whatever the sign of [V]. *)
Lemma mul_twice_not_negative a V :
  (a <? 0) = false -> (a * V * V <? 0) = false.
Proof.
  rewrite !not_negative_iff, !mul_spec. unfold SF64mul.
  intros [Ha|[[sa Ha]|Ha]].
  - rewrite Ha. now left.
  - rewrite Ha. destruct (Prim2SF V) as [s|s| |s m e]; cbn; eauto.
  - destruct (SFmul_sign (Prim2SF a) (Prim2SF V)) as [H1|H1].
    + rewrite H1. now left.
    + destruct (SFmul_sign (SFmul prec emax (Prim2SF a) (Prim2SF V)) (Prim2SF V))
        as [H2|H2]; [now left|].
      right. right. rewrite H2, H1, Ha. now destruct (sf_sign (Prim2SF V)).
Qed.

Lemma div_not_negative a d :
  (a <? 0) = false ->
  Prim2SF d = S754_nan \/ sf_sign (Prim2SF d) = false ->
  (a / d <? 0) = false.
Proof.
  rewrite !not_negative_iff, div_spec. unfold SF64div.
  intros [Ha|[[sa Ha]|Ha]] Hd.
  - rewrite Ha. now left.
  - rewrite Ha. destruct (Prim2SF d) as [s|s| |s m e]; cbn; eauto.
  - destruct Hd as [Hd|Hd].
    + rewrite Hd. left. now destruct (Prim2SF a).
    + destruct (SFdiv_sign (Prim2SF a) (Prim2SF d)) as [H|H]; [now left|].
      right. right. now rewrite H, Ha, Hd.
Qed.

Lemma twice_positive D :
  (0 <? D) = true ->
  Prim2SF (2.0 * D) = S754_nan \/ sf_sign (Prim2SF (2.0 * D)) = false.
Proof.
  intros H. apply positive_iff in H as [_ H]. rewrite mul_spec. unfold SF64mul.
  destruct (SFmul_sign (Prim2SF 2.0) (Prim2SF D)) as [E|E]; [now left|].
  right. rewrite E, H. reflexivity.
Qed.

Lemma In_elements_ufunc1 g a y :
  In y (elements (ufunc1 g a)) ->
  y = nan \/ exists x, In x (elements a) /\ y = g x.
Proof.
  unfold ufunc1, np_result. destruct (shape_of a); cbn [elements].
  - intros [<-|[]]. destruct (elements a) as [|x l]; cbn; [now left|].
    right. exists x. split; [now left | reflexivity].
  - intros H. apply in_map_iff in H as (x & <- & Hx). right. eauto.
Qed.

Lemma In_elements_py_mul a c y :
  In y (elements (py_mul a c)) ->
  y = nan \/ exists x, In x (elements a) /\ y = x * c.
Proof.
  destruct a as [x|x|s d]; cbn [py_mul].
  - intros [<-|[]]. right. exists x. split; [now left | reflexivity].
  - apply In_elements_ufunc1.
  - apply In_elements_ufunc1.
Qed.

Lemma In_elements_py_div a c r y :
  py_div a c = Done r ->
  In y (elements r) ->
  y = nan \/ exists x, In x (elements a) /\ y = x / c.
Proof.
  destruct a as [x|x|s d]; cbn [py_div].
  - unfold py_truediv. destruct (c =? 0); [discriminate|].
    intros [= <-] [<-|[]]. right. exists x. split; [now left | reflexivity].
  - intros [= <-]. apply In_elements_ufunc1.
  - intros [= <-]. apply In_elements_ufunc1.
Qed.

(** X9: the pressure gradient of a friction factor that is not negative,
    for a density that is not negative and a positive diameter, is not
    negative, whatever the sign of the velocity, which enters twice. *)
Theorem pressure_gradient_not_negative
    (f : value) (rho V D : float) (dpdx : value) :
  none_negative f ->
  (rho <? 0) = false ->
  (0 <? D) = true ->
  pressure_gradient f rho V D = Done dpdx ->
  none_negative dpdx.
Proof.
  intros Hf Hrho HD Hp y Hy. unfold pressure_gradient in Hp.
  destruct (@In_elements_py_div _ _ _ _ Hp Hy) as [->|(x3 & H3 & ->)];
    [reflexivity|].
  apply div_not_negative; [|now apply twice_positive].
  destruct (@In_elements_py_mul _ _ _ H3) as [->|(x2 & H2 & ->)]; [reflexivity|].
  destruct (@In_elements_py_mul _ _ _ H2) as [->|(x1 & H1 & ->)];
    [now rewrite mul_nan_l|].
  apply mul_twice_not_negative.
  destruct (@In_elements_py_mul _ _ _ H1) as [->|(x & Hx & ->)]; [reflexivity|].
  apply mul_not_negative; [now apply Hf | assumption].
Qed.

Lemma pressure_gradient_not_negative_witness :
  none_negative (NdArray [2%nat] [250; 0]).
Proof.
  apply (@pressure_gradient_not_negative
           (NdArray [2%nat] [0.03125; 0]) 1000 (-2) 0.25).
  - intros y [<-|[<-|[]]]; reflexivity.
  - reflexivity.
  - reflexivity.
  - vm_compute. reflexivity.
Defined.







(** ** The example script: one scenario *)

Lemma scenario_row_run ln pw iters sc tr R K :
  reynolds_number (sc_rho sc) (sc_V sc) (sc_D sc) (sc_mu sc) = Done R ->
  py_truediv (sc_epsilon sc) (sc_D sc) = Done K ->
  accepted (PyFloat R) (PyFloat K) iters = true ->
  (sc_rho sc <? 0) = false ->
  (0 <? sc_D sc) = true ->
  (forall y, (pw y <? 0) = false) ->
  (scenario_row ln pw iters sc tr =
   (Failed (FromSolver DomainError),
    tr ++ advisories (PyFloat R) ++
    repeat LogDomainCheck
      (solver_checks ln (PyFloat R) (PyFloat K) [] (Z.to_nat iters)))
   /\ (1 <= Z.to_nat iters)%nat)
  \/ (exists x,
        scenario_row ln pw iters sc tr =
        (Done {| row_R := R; row_K := K; row_f := NpFloat64 x;
                 row_dpdx :=
                   NpFloat64 (x * sc_rho sc * sc_V sc * sc_V sc / (2.0 * sc_D sc)) |},
         tr ++ advisories (PyFloat R) ++
         repeat LogDomainCheck (Z.to_nat iters))
        /\ (x <? 0) = false
        /\ (x * sc_rho sc * sc_V sc * sc_V sc / (2.0 * sc_D sc) <? 0) = false).
Proof.
  intros HR HK Hacc Hrho HD Hpw.
  assert (Hd : forall x, (x <? 0) = false ->
            (x * sc_rho sc * sc_V sc * sc_V sc / (2.0 * sc_D sc) <? 0) = false).
  { intros x Hx. apply div_not_negative; [|now apply twice_positive].
    apply mul_twice_not_negative. now apply mul_not_negative. }
  unfold scenario_row. rewrite HR, HK.
  rewrite (@f_clamond_run ln pw (PyFloat R) (PyFloat K) iters [] eq_refl Hacc eq_refl).
  destruct (Z.to_nat iters) as [|n] eqn:En.
  - right. eexists. split; [reflexivity|].
    split; [apply Hpw | apply Hd, Hpw].
  - unfold solver_outcome.
    destruct (forallb _ _) eqn:Hok.
    + right.
      destruct (solver_outcome_returned ln pw (PyFloat R) (PyFloat K) [] (S n) Hok)
        as [-> _].
      eexists. split; [reflexivity|].
      split; [apply Hpw | apply Hd, Hpw].
    + left. split; [reflexivity | lia].
Qed.

(** X11: one pass of the loop of [run_scenarios], on a scenario whose
    viscosity and diameter are not zero, whose Reynolds number and roughness
    the solver accepts, with a density that is not negative and a positive
    diameter, and a scalar power that is never negative, as a square is
    not: the only failure is the log-domain error of the solver;
    otherwise the friction factor and the pressure gradient are float64
    scalars, neither is negative, and the pressure gradient is
    [f * rho * V * V / (2 * D)]; the division never raises, the friction
    factor being a NumPy value. *)
Theorem scenario_row_fails_only_in_the_log_domain
    (ln pw : float -> float) (iters : Z) (sc : scenario) (tr : trace) (R K : float) :
  reynolds_number (sc_rho sc) (sc_V sc) (sc_D sc) (sc_mu sc) = Done R ->
  py_truediv (sc_epsilon sc) (sc_D sc) = Done K ->
  accepted (PyFloat R) (PyFloat K) iters = true ->
  (sc_rho sc <? 0) = false ->
  (0 <? sc_D sc) = true ->
  (forall y, (pw y <? 0) = false) ->
  (exists c, (1 <= c <= Z.to_nat iters)%nat /\
     scenario_row ln pw iters sc tr =
     (Failed (FromSolver DomainError),
      tr ++ advisories (PyFloat R) ++ repeat LogDomainCheck c))
  \/ (exists x,
        scenario_row ln pw iters sc tr =
        (Done {| row_R := R; row_K := K; row_f := NpFloat64 x;
                 row_dpdx :=
                   NpFloat64 (x * sc_rho sc * sc_V sc * sc_V sc / (2.0 * sc_D sc)) |},
         tr ++ advisories (PyFloat R) ++ repeat LogDomainCheck (Z.to_nat iters))
        /\ (x <? 0) = false
        /\ (x * sc_rho sc * sc_V sc * sc_V sc / (2.0 * sc_D sc) <? 0) = false).
Proof.
  intros HR HK Hacc Hrho HD Hpw.
  destruct (scenario_row_run ln pw iters sc tr HR HK Hacc Hrho HD Hpw)
    as [[E Hn]|(x & E & Hx & Hy)].
  - left. exists (solver_checks ln (PyFloat R) (PyFloat K) [] (Z.to_nat iters)).
    split; [|exact E]. split; [|apply solver_checks_le].
    unfold solver_checks. destruct (Z.to_nat iters); [lia|].
    cbn [checks_performed]. lia.
  - right. exists x. auto.
Qed.

(** The first scenario of the table, two iterations. *)
Lemma scenario_row_fails_only_in_the_log_domain_witness :
  let ln := LnRef.ln_ref in
  let pw := pow2_ref in
  let sc := scenario_of "S1" D_SERVICE EPS_NEW_STEEL 1.0 WATER_60C in
  let R := 105246.25267665954 in
  let K := 0.001 in
  (exists c, (1 <= c <= Z.to_nat 2)%nat /\
     scenario_row ln pw 2 sc [] =
     (Failed (FromSolver DomainError),
      [] ++ advisories (PyFloat R) ++ repeat LogDomainCheck c))
  \/ (exists x,
        scenario_row ln pw 2 sc [] =
        (Done {| row_R := R; row_K := K; row_f := NpFloat64 x;
                 row_dpdx :=
                   NpFloat64 (x * sc_rho sc * sc_V sc * sc_V sc / (2.0 * sc_D sc)) |},
         [] ++ advisories (PyFloat R) ++ repeat LogDomainCheck (Z.to_nat 2))
        /\ (x <? 0) = false
        /\ (x * sc_rho sc * sc_V sc * sc_V sc / (2.0 * sc_D sc) <? 0) = false).
Proof.
  apply (@scenario_row_fails_only_in_the_log_domain
           LnRef.ln_ref pow2_ref 2 (scenario_of "S1" D_SERVICE EPS_NEW_STEEL 1.0 WATER_60C)
           [] 105246.25267665954 0.001);
    try reflexivity.
  apply square_not_negative.
Defined.

(** ** The example script: the table of scenarios *)

Lemma accepted_scalars (R K : float) (iters : Z) :
  (R <=? 0) = false -> (K <? 0) = false -> (0 <= iters)%Z ->
  accepted (PyFloat R) (PyFloat K) iters = true.
Proof.
  intros HR HK Hi. unfold accepted, np_any. cbn [elements existsb].
  rewrite HR, HK. cbn. apply negb_true_iff, Z.ltb_ge. exact Hi.
Qed.

Lemma scenario_row_turbulent ln pw iters sc tr R K :
  reynolds_number (sc_rho sc) (sc_V sc) (sc_D sc) (sc_mu sc) = Done R ->
  py_truediv (sc_epsilon sc) (sc_D sc) = Done K ->
  (R <=? 0) = false ->
  (R <? 2300) = false ->
  (K <? 0) = false ->
  (sc_rho sc <? 0) = false ->
  (0 <? sc_D sc) = true ->
  (0 <= iters)%Z ->
  (forall y, (pw y <? 0) = false) ->
  (exists c, (1 <= c <= Z.to_nat iters)%nat /\
     scenario_row ln pw iters sc tr =
     (Failed (FromSolver DomainError), tr ++ repeat LogDomainCheck c))
  \/ (exists x,
        scenario_row ln pw iters sc tr =
        (Done {| row_R := R; row_K := K; row_f := NpFloat64 x;
                 row_dpdx :=
                   NpFloat64 (x * sc_rho sc * sc_V sc * sc_V sc / (2.0 * sc_D sc)) |},
         tr ++ repeat LogDomainCheck (Z.to_nat iters))
        /\ (x <? 0) = false
        /\ (x * sc_rho sc * sc_V sc * sc_V sc / (2.0 * sc_D sc) <? 0) = false).
Proof.
  intros HR HK HR0 HR2300 HK0 Hrho HD Hi Hpw.
  assert (Hacc : accepted (PyFloat R) (PyFloat K) iters = true)
    by now apply accepted_scalars.
  assert (Hadv : advisories (PyFloat R) = []).
  { unfold advisories, np_any. cbn [elements existsb]. now rewrite HR2300. }
  destruct (scenario_row_run ln pw iters sc tr HR HK Hacc Hrho HD Hpw)
    as [[E Hn]|(x & E & Hx & Hy)]; rewrite Hadv in E; cbn [app] in E.
  - left. exists (solver_checks ln (PyFloat R) (PyFloat K) [] (Z.to_nat iters)).
    split; [|exact E]. split; [|apply solver_checks_le].
    unfold solver_checks. destruct (Z.to_nat iters); [lia|].
    cbn [checks_performed]. lia.
  - right. exists x. auto.
Qed.

(** X12: the six scenarios of [build_scenarios] are in the domain of the
    solver and turbulent: for each of them, whatever the logarithm and the
    number of iterations, no division by zero occurs, the Reynolds number
    is at least 2300 and the roughness positive, so the solver accepts them
    and emits no advisory; the pass then fails only with the log-domain
    error, or yields a friction factor and a pressure gradient that are not
    negative, the scalar power being never negative. *)
Theorem built_in_scenarios_are_valid_and_turbulent
    (ln pw : float -> float) (iters : Z) (sc : scenario) (tr : trace) :
  In sc build_scenarios ->
  (0 <= iters)%Z ->
  (forall y, (pw y <? 0) = false) ->
  exists R K,
    reynolds_number (sc_rho sc) (sc_V sc) (sc_D sc) (sc_mu sc) = Done R
    /\ py_truediv (sc_epsilon sc) (sc_D sc) = Done K
    /\ (2300 <=? R) = true
    /\ (0 <? K) = true
    /\ ((exists c, (1 <= c <= Z.to_nat iters)%nat /\
           scenario_row ln pw iters sc tr =
           (Failed (FromSolver DomainError), tr ++ repeat LogDomainCheck c))
        \/ (exists x,
              scenario_row ln pw iters sc tr =
              (Done {| row_R := R; row_K := K; row_f := NpFloat64 x;
                       row_dpdx :=
                         NpFloat64 (x * sc_rho sc * sc_V sc * sc_V sc
                                    / (2.0 * sc_D sc)) |},
               tr ++ repeat LogDomainCheck (Z.to_nat iters))
              /\ (x <? 0) = false
              /\ (x * sc_rho sc * sc_V sc * sc_V sc / (2.0 * sc_D sc) <? 0) = false)).
Proof.
  intros Hin Hi Hpw.
  assert (H : forall R K,
    reynolds_number (sc_rho sc) (sc_V sc) (sc_D sc) (sc_mu sc) = Done R ->
    py_truediv (sc_epsilon sc) (sc_D sc) = Done K ->
    (2300 <=? R) = true -> (0 <? K) = true ->
    (R <=? 0) = false -> (R <? 2300) = false -> (K <? 0) = false ->
    (sc_rho sc <? 0) = false -> (0 <? sc_D sc) = true ->
    exists R K,
      reynolds_number (sc_rho sc) (sc_V sc) (sc_D sc) (sc_mu sc) = Done R
      /\ py_truediv (sc_epsilon sc) (sc_D sc) = Done K
      /\ (2300 <=? R) = true
      /\ (0 <? K) = true
      /\ ((exists c, (1 <= c <= Z.to_nat iters)%nat /\
             scenario_row ln pw iters sc tr =
             (Failed (FromSolver DomainError), tr ++ repeat LogDomainCheck c))
          \/ (exists x,
                scenario_row ln pw iters sc tr =
                (Done {| row_R := R; row_K := K; row_f := NpFloat64 x;
                         row_dpdx :=
                           NpFloat64 (x * sc_rho sc * sc_V sc * sc_V sc
                                      / (2.0 * sc_D sc)) |},
                 tr ++ repeat LogDomainCheck (Z.to_nat iters))
                /\ (x <? 0) = false
                /\ (x * sc_rho sc * sc_V sc * sc_V sc / (2.0 * sc_D sc) <? 0) = false))).
  { intros R K HR HK H1 H2 H3 H4 H5 H6 H7. exists R, K.
    repeat (split; [assumption|]).
    now apply scenario_row_turbulent. }
  cbn [build_scenarios In] in Hin.
  destruct Hin as [<-|[<-|[<-|[<-|[<-|[<-|[]]]]]]];
    eapply H; reflexivity.
Qed.

(** The third scenario, the main pipe, two iterations. *)
Lemma built_in_scenarios_are_valid_and_turbulent_witness :
  let ln := LnRef.ln_ref in
  let pw := pow2_ref in
  let sc := scenario_of "S3: Main pipe, new steel, typical V, 60°C"
              D_MAIN EPS_NEW_STEEL 1.5 WATER_60C in
  exists R K,
    reynolds_number (sc_rho sc) (sc_V sc) (sc_D sc) (sc_mu sc) = Done R
    /\ py_truediv (sc_epsilon sc) (sc_D sc) = Done K
    /\ (2300 <=? R) = true
    /\ (0 <? K) = true
    /\ ((exists c, (1 <= c <= Z.to_nat 2)%nat /\
           scenario_row ln pw 2 sc [] =
           (Failed (FromSolver DomainError), [] ++ repeat LogDomainCheck c))
        \/ (exists x,
              scenario_row ln pw 2 sc [] =
              (Done {| row_R := R; row_K := K; row_f := NpFloat64 x;
                       row_dpdx :=
                         NpFloat64 (x * sc_rho sc * sc_V sc * sc_V sc
                                    / (2.0 * sc_D sc)) |},
               [] ++ repeat LogDomainCheck (Z.to_nat 2))
              /\ (x <? 0) = false
              /\ (x * sc_rho sc * sc_V sc * sc_V sc / (2.0 * sc_D sc) <? 0) = false)).
Proof.
  apply (@built_in_scenarios_are_valid_and_turbulent
           LnRef.ln_ref pow2_ref 2
           (scenario_of "S3: Main pipe, new steel, typical V, 60°C"
              D_MAIN EPS_NEW_STEEL 1.5 WATER_60C) []).
  - right. right. left. reflexivity.
  - lia.
  - apply square_not_negative.
Defined.

(** ** The example script: one against two iterations *)

Lemma f_clamond_scalars ln pw (R K : float) iters tr :
  accepted (PyFloat R) (PyFloat K) iters = true ->
  f_clamond ln pw (PyFloat R) (PyFloat K) iters tr =
  (if scheme_defined ln (_C1 ln) (_C2 ln) R K (Z.to_nat iters)
   then Returned (NpFloat64 (scheme_value ln pw (_C1 ln) (_C2 ln) _A R K (Z.to_nat iters)))
   else Raised DomainError,
   tr ++ advisories (PyFloat R) ++
   repeat LogDomainCheck
     (solver_checks ln (PyFloat R) (PyFloat K) [] (Z.to_nat iters))).
Proof.
  intros Hacc.
  rewrite (@f_clamond_run ln pw (PyFloat R) (PyFloat K) iters [] eq_refl Hacc eq_refl).
  f_equal. unfold solver_outcome. destruct (Z.to_nat iters) as [|n]; [reflexivity|].
  change (seq 0 (size [])) with [0%nat]. cbn [forallb]. rewrite andb_true_r.
  reflexivity.
Qed.

Lemma abs_not_negative x : (abs x <? 0) = false.
Proof.
  apply not_negative_iff. right. right. rewrite abs_spec.
  now destruct (Prim2SF x).
Qed.

Lemma not_negative_not_zero_sign x :
  (x <? 0) = false -> (x =? 0) = false ->
  Prim2SF x = S754_nan \/ sf_sign (Prim2SF x) = false.
Proof.
  intros H H0. apply not_negative_iff in H as [H|[[s H]|H]];
    [now left | | now right].
  exfalso. rewrite FloatAxioms.eqb_spec, H in H0. now destruct s.
Qed.

(** X13: [compare_iterations] ends in one of three ways, whatever the
    logarithm is: the call with one iteration fails its log-domain check;
    or it passes and the call with two iterations fails its second check,
    the first being the one already passed; or both calls return, after
    three checks in all, and the relative difference is
    [abs(f2 - f1) / f2], or NaN when [f2] is zero, and is not negative, the
    scalar power being never negative. Nothing else is raised and no
    advisory is emitted. *)
Theorem compare_iterations_outcomes (ln pw : float -> float) (tr : trace) :
  (forall y, (pw y <? 0) = false) ->
  compare_iterations_values ln pw tr =
    (Failed (FromSolver DomainError), tr ++ [LogDomainCheck])
  \/ compare_iterations_values ln pw tr =
       (Failed (FromSolver DomainError), tr ++ repeat LogDomainCheck 3)
  \/ exists x1 x2 : float,
       compare_iterations_values ln pw tr =
       (Done {| cmp_R := 315738.75802997861;
                cmp_K := 0.0005;
                cmp_f1 := NpFloat64 x1;
                cmp_f2 := NpFloat64 x2;
                cmp_dp1 := NpFloat64 (x1 * 983.0 * 1.5 * 1.5 / (2.0 * 0.100));
                cmp_dp2 := NpFloat64 (x2 * 983.0 * 1.5 * 1.5 / (2.0 * 0.100));
                cmp_rel := if x2 =? 0 then PyFloat nan
                           else NpFloat64 (abs (x2 - x1) / x2) |},
        tr ++ repeat LogDomainCheck 3)
       /\ ((if x2 =? 0 then nan else abs (x2 - x1) / x2) <? 0) = false.
Proof.
  intros Hpw.
  set (R := 315738.75802997861). set (K := 0.0005).
  assert (Hacc1 : accepted (PyFloat R) (PyFloat K) 1 = true) by reflexivity.
  assert (Hacc2 : accepted (PyFloat R) (PyFloat K) 2 = true) by reflexivity.
  assert (E : forall tr, compare_iterations_values ln pw tr =
    match f_clamond ln pw (PyFloat R) (PyFloat K) 1 tr with
    | (Raised e, tr1) => (Failed (FromSolver e), tr1)
    | (Returned f1, tr1) =>
    match f_clamond ln pw (PyFloat R) (PyFloat K) 2 tr1 with
    | (Raised e, tr2) => (Failed (FromSolver e), tr2)
    | (Returned f2, tr2) =>
    match pressure_gradient f1 983.0 1.5 0.100 with
    | Failed e => (Failed e, tr2)
    | Done dp1 =>
    match pressure_gradient f2 983.0 1.5 0.100 with
    | Failed e => (Failed e, tr2)
    | Done dp2 =>
    match if_ne_0 f2 with
    | Failed e => (Failed e, tr2)
    | Done true =>
        match (np_abs (val f2 - val f1) / val f2)%np tr2 with
        | (Raised e, tr3) => (Failed (FromNumPy e), tr3)
        | (Returned rel, tr3) =>
            (Done {| cmp_R := R; cmp_K := K; cmp_f1 := f1; cmp_f2 := f2;
                     cmp_dp1 := dp1; cmp_dp2 := dp2; cmp_rel := rel |}, tr3)
        end
    | Done false =>
        (Done {| cmp_R := R; cmp_K := K; cmp_f1 := f1; cmp_f2 := f2;
                 cmp_dp1 := dp1; cmp_dp2 := dp2; cmp_rel := PyFloat nan |}, tr2)
    end end end end end) by reflexivity.
  rewrite E. clear E.
  rewrite (f_clamond_scalars ln pw R K 1 tr Hacc1).
  change (advisories (PyFloat R)) with (@nil event).
  change (Z.to_nat 1) with 1%nat. cbn [app].
  assert (Hc1 : solver_checks ln (PyFloat R) (PyFloat K) [] 1 = 1%nat).
  { unfold solver_checks. cbn [checks_performed]. now destruct (forallb _ _). }
  rewrite Hc1. cbn [repeat].
  destruct (scheme_defined ln (_C1 ln) (_C2 ln) R K 1) eqn:Hd1; [|now left].
  right.
  rewrite (f_clamond_scalars ln pw R K 2 (tr ++ [LogDomainCheck]) Hacc2).
  change (advisories (PyFloat R)) with (@nil event).
  change (Z.to_nat 2) with 2%nat. cbn [app].
  assert (Hc2 : solver_checks ln (PyFloat R) (PyFloat K) [] 2 = 2%nat).
  { unfold solver_checks. cbn [checks_performed].
    change (seq 0 (size [])) with [0%nat]. cbn [forallb].
    unfold scheme_defined in Hd1. cbn [domain_ok] in Hd1.
    apply andb_prop in Hd1 as [Hd1 _].
    change (view (PyFloat R) [] 0) with R. change (view (PyFloat K) [] 0) with K.
    unfold X1_at, F_init_at.
    change (view (PyFloat R) [] 0) with R. change (view (PyFloat K) [] 0) with K.
    rewrite Hd1. cbn [andb]. now destruct (log_arg_ok _ _ && true). }
  rewrite Hc2, <- app_assoc. cbn [repeat app].
  destruct (scheme_defined ln (_C1 ln) (_C2 ln) R K 2) eqn:Hd2; [|now left].
  right.
  set (x1 := scheme_value ln pw (_C1 ln) (_C2 ln) _A R K 1).
  set (x2 := scheme_value ln pw (_C1 ln) (_C2 ln) _A R K 2).
  exists x1, x2.
  assert (Hrel : ((if x2 =? 0 then nan else abs (x2 - x1) / x2) <? 0) = false).
  { destruct (x2 =? 0) eqn:E0; [reflexivity|].
    apply div_not_negative; [apply abs_not_negative|].
    apply not_negative_not_zero_sign; [apply Hpw | exact E0]. }
  split; [|exact Hrel].
  cbn [pressure_gradient py_div py_mul if_ne_0 elements].
  destruct (x2 =? 0); reflexivity.
Qed.

(** The comparison with the reference logarithm and a correctly rounded
    power. *)
Lemma compare_iterations_outcomes_witness :
  let ln := LnRef.ln_ref in
  let pw := pow2_ref in
  compare_iterations_values ln pw [] =
    (Failed (FromSolver DomainError), [] ++ [LogDomainCheck])
  \/ compare_iterations_values ln pw [] =
       (Failed (FromSolver DomainError), [] ++ repeat LogDomainCheck 3)
  \/ exists x1 x2 : float,
       compare_iterations_values ln pw [] =
       (Done {| cmp_R := 315738.75802997861;
                cmp_K := 0.0005;
                cmp_f1 := NpFloat64 x1;
                cmp_f2 := NpFloat64 x2;
                cmp_dp1 := NpFloat64 (x1 * 983.0 * 1.5 * 1.5 / (2.0 * 0.100));
                cmp_dp2 := NpFloat64 (x2 * 983.0 * 1.5 * 1.5 / (2.0 * 0.100));
                cmp_rel := if x2 =? 0 then PyFloat nan
                           else NpFloat64 (abs (x2 - x1) / x2) |},
        [] ++ repeat LogDomainCheck 3)
       /\ ((if x2 =? 0 then nan else abs (x2 - x1) / x2) <? 0) = false.
Proof.
  apply (@compare_iterations_outcomes LnRef.ln_ref pow2_ref []).
  apply square_not_negative.
Defined.
